(** * SHT1x: a shallow embedding of the Arduino driver (SHT1x.cpp)

    The driver bit-bangs the two-wire protocol of the Sensirion SHT1x
    sensors and converts the raw words to physical units.  The embedding
    follows the source method by method:

    - [float] is IEEE-754 binary32, computed by the executable
      specification of the Standard Library ([SpecFloat], precision 24,
      emax 128, round to nearest even).  On the AVR targets of
      Arduino.h / WProgram.h both [float] and [double] are binary32, so a
      literal such as [25.0] denotes the nearest binary32 value.
    - [int] is a two's complement integer of [int_bits] bits (at least 16),
      kept as a [Z] with the wrap-around written out; [uint8_t] is reduced
      modulo 256 and [unsigned long] modulo 2^32.
    - the methods run in a state monad over the object, the cursors of the
      two input oracles (data line, millisecond clock) and the log of the
      calls made to the Arduino core. *)

From Stdlib Require Import ZArith List Bool Lia PeanoNat.
From Stdlib Require Import Floats.SpecFloat.
Import ListNotations.

Local Open Scope Z_scope.

(* ================================================================== *)
(** ** binary32 arithmetic *)
(* ================================================================== *)

Definition float : Type := spec_float.

Definition prec32 : Z := 24.
Definition emax32 : Z := 128.

Definition fadd : float -> float -> float := SFadd prec32 emax32.
Definition fsub : float -> float -> float := SFsub prec32 emax32.
Definition fmul : float -> float -> float := SFmul prec32 emax32.
Definition fdiv : float -> float -> float := SFdiv prec32 emax32.
Definition fneg : float -> float := SFopp.

(** [x > y] of C++: false as soon as one operand is NaN. *)
Definition fgt (x y : float) : bool :=
  match SFcompare x y with Some Gt => true | _ => false end.

(** [x <= y] and [x == y] of C++. *)
Definition fle (x y : float) : bool := SFleb x y.
Definition feq (x y : float) : bool := SFeqb x y.

Definition is_nan (x : float) : bool :=
  match x with S754_nan => true | _ => false end.

(** Conversion of an integer to [float] (round to nearest even). *)
Definition of_int (z : Z) : float := binary_normalize prec32 emax32 z 0 false.

(** Conversion of a [float] to an integer: truncation toward zero.  C++
    leaves the conversion of NaN and of the infinities undefined; they are
    mapped to 0 here. *)
Definition to_Z (x : float) : Z :=
  match x with
  | S754_finite s m e =>
      let a := match e with
               | Zneg p => Z.pos m / 2 ^ Z.pos p
               | _ => Z.pos m * 2 ^ e
               end in
      if s then - a else a
  | _ => 0
  end.

(** A decimal literal [num/den] with [num] and [den] below 2^24: both are
    exact in binary32 and the division rounds once, so the result is the
    binary32 value nearest to the decimal. *)
Definition dec (num den : Z) : float := fdiv (of_int num) (of_int den).

Declare Scope f32_scope.
Delimit Scope f32_scope with f32.
Bind Scope f32_scope with float.
Infix "+" := fadd : f32_scope.
Infix "-" := fsub : f32_scope.
Infix "*" := fmul : f32_scope.
Infix "/" := fdiv : f32_scope.
Notation "- x" := (fneg x) : f32_scope.

(* ================================================================== *)
(** ** Integer types *)
(* ================================================================== *)

(** Two's complement reduction to [w] bits. *)
Definition wrap_signed (w : Z) (z : Z) : Z :=
  (z + 2 ^ (w - 1)) mod 2 ^ w - 2 ^ (w - 1).

Definition to_uint8 (z : Z) : Z := z mod 256.
Definition to_uint16 (z : Z) : Z := z mod 65536.
Definition to_ulong (z : Z) : Z := z mod 2 ^ 32.

(* ================================================================== *)
(** ** The object and the world it runs in *)
(* ================================================================== *)

Inductive PinMode : Type := INPUT | OUTPUT | INPUT_PULLUP.

Inductive Level : Type := LOW | HIGH.

(** Calls made to the Arduino core, in program order. *)
Inductive Event : Type :=
| EvPinMode (pin : Z) (m : PinMode)
| EvDigitalWrite (pin : Z) (l : Level)
| EvDigitalRead (pin : Z)
| EvMillis
| EvShiftOutMSB (dataPin clockPin : Z) (val : Z)
| EvSerialPrintln (x : float).

(** Modelled from the spec: the class declaration (SHT1x.h) is missing.
    The fields are those the methods assign and read: the two pins, the
    input mode of the data line, the four calibration coefficients (an
    offset and a slope for Celsius and for Fahrenheit) and the last raw
    temperature.  The spec calls the latter a 16-bit unsigned value; it is
    kept here as the [int] that [readInTemperature] assigns and returns,
    whose low 16 bits are that value. *)
Record SHT1x : Type := mkSHT1x {
  _dataPin : Z;
  _clockPin : Z;
  _dataInputMode : PinMode;
  _temperatureRaw : Z;
  _D1C : float;
  _D1F : float;
  _D2C : float;
  _D2F : float
}.

(** The state threaded through the methods: the object, how many samples
    of the data line and of the clock have been consumed, and the log. *)
Record Sys : Type := mkSys {
  obj : SHT1x;
  nread : nat;
  ntime : nat;
  out : list Event
}.

Definition set_obj (s : SHT1x) (st : Sys) : Sys :=
  mkSys s (nread st) (ntime st) (out st).

Definition set_D1C (x : float) (s : SHT1x) : SHT1x :=
  mkSHT1x (_dataPin s) (_clockPin s) (_dataInputMode s) (_temperatureRaw s)
          x (_D1F s) (_D2C s) (_D2F s).
Definition set_D1F (x : float) (s : SHT1x) : SHT1x :=
  mkSHT1x (_dataPin s) (_clockPin s) (_dataInputMode s) (_temperatureRaw s)
          (_D1C s) x (_D2C s) (_D2F s).
Definition set_D2C (x : float) (s : SHT1x) : SHT1x :=
  mkSHT1x (_dataPin s) (_clockPin s) (_dataInputMode s) (_temperatureRaw s)
          (_D1C s) (_D1F s) x (_D2F s).
Definition set_D2F (x : float) (s : SHT1x) : SHT1x :=
  mkSHT1x (_dataPin s) (_clockPin s) (_dataInputMode s) (_temperatureRaw s)
          (_D1C s) (_D1F s) (_D2C s) x.
Definition set_temperatureRaw (x : Z) (s : SHT1x) : SHT1x :=
  mkSHT1x (_dataPin s) (_clockPin s) (_dataInputMode s) x
          (_D1C s) (_D1F s) (_D2C s) (_D2F s).

(* ================================================================== *)
(** ** The monad of the methods *)
(* ================================================================== *)

(** [None] is reserved for a loop that has not finished within its fuel;
    only the ready poll can produce it. *)
Definition M (A : Type) : Type := Sys -> option (A * Sys).

Definition ret {A} (a : A) : M A := fun st => Some (a, st).

Definition bind {A B} (m : M A) (k : A -> M B) : M B :=
  fun st => match m st with
            | Some (a, st') => k a st'
            | None => None
            end.

Declare Scope monad_scope.
Delimit Scope monad_scope with monad.
Notation "x <- c1 ;; c2" := (bind c1 (fun x => c2))
  (at level 61, c1 at next level, right associativity) : monad_scope.
Notation "c1 ;; c2" := (bind c1 (fun _ => c2))
  (at level 61, right associativity) : monad_scope.
Local Open Scope monad_scope.

Definition get_obj : M SHT1x := fun st => Some (obj st, st).
Definition modify_obj (f : SHT1x -> SHT1x) : M unit :=
  fun st => Some (tt, set_obj (f (obj st)) st).
Definition emit (e : Event) : M unit :=
  fun st => Some (tt, mkSys (obj st) (nread st) (ntime st) (out st ++ [e])).

(** The final state and the returned value of a finished run. *)
Definition exec {A} (m : M A) (st : Sys) : option Sys :=
  match m st with Some (_, st') => Some st' | None => None end.
Definition eval {A} (m : M A) (st : Sys) : option A :=
  match m st with Some (a, _) => Some a | None => None end.

(* ================================================================== *)
(** ** Calibration: [_setConversionCoeffs] and [_linearInterpolation] *)
(* ================================================================== *)

Definition DEFAULT_VOLTAGE : Z := 5.
Definition VALS_IN_TABLE : nat := 5.

(** The three tables of [_setConversionCoeffs], from high to low voltage. *)
Definition coeffsC : list float :=
  [dec 401 10; dec 398 10; dec 397 10; dec 396 10; dec 394 10].
Definition coeffsF : list float :=
  [dec 402 10; dec 396 10; dec 395 10; dec 393 10; dec 389 10].
Definition vals : list float :=
  [of_int 5; of_int 4; dec 35 10; of_int 3; dec 25 10].

(** [a[i]]; every index used below is within the table. *)
Definition idx (a : list float) (i : nat) : float := nth i a (S754_zero false).

(** The value of [(coeffA-coeffB)/valA*input+coeffB]. *)
Definition interpolate (coeffA coeffB valA input : float) : float :=
  ((coeffA - coeffB) / valA * input + coeffB)%f32.

(** The method prints the value on the serial port and returns it. *)
Definition _linearInterpolation (coeffA coeffB valA input : float) : M float :=
  emit (EvSerialPrintln (interpolate coeffA coeffB valA input)) ;;
  ret (interpolate coeffA coeffB valA input).

(** The body of the [if] at index [i]: both offsets, then [break]. *)
Definition assign_offsets (i : nat) (voltage : float) : M unit :=
  c <- _linearInterpolation (idx coeffsC (i - 1)) (idx coeffsC i)
                            (idx vals (i - 1)) voltage ;;
  modify_obj (set_D1C (- c)%f32) ;;
  f <- _linearInterpolation (idx coeffsF (i - 1)) (idx coeffsF i)
                            (idx vals (i - 1)) voltage ;;
  modify_obj (set_D1F (- f)%f32).

(** [for (int i = ...; i < VALS_IN_TABLE; i++)] from index [i] on; [n]
    bounds the number of tests of the loop condition still to come. *)
Fixpoint coeffs_loop (n : nat) (i : nat) (voltage : float) : M unit :=
  match n with
  | O => ret tt
  | S n' =>
      if (i <? VALS_IN_TABLE)%nat then
        if fgt voltage (idx vals i) then assign_offsets i voltage
        else coeffs_loop n' (S i) voltage
      else ret tt
  end.

Definition _setConversionCoeffs (voltage : float) : M unit :=
  modify_obj (set_D2C (dec 1 100)) ;;
  modify_obj (set_D2F (dec 18 1000)) ;;
  coeffs_loop VALS_IN_TABLE 1 voltage.

Definition set_dataPin (x : Z) (s : SHT1x) : SHT1x :=
  mkSHT1x x (_clockPin s) (_dataInputMode s) (_temperatureRaw s)
          (_D1C s) (_D1F s) (_D2C s) (_D2F s).
Definition set_clockPin (x : Z) (s : SHT1x) : SHT1x :=
  mkSHT1x (_dataPin s) x (_dataInputMode s) (_temperatureRaw s)
          (_D1C s) (_D1F s) (_D2C s) (_D2F s).
Definition set_dataInputMode (x : PinMode) (s : SHT1x) : SHT1x :=
  mkSHT1x (_dataPin s) (_clockPin s) x (_temperatureRaw s)
          (_D1C s) (_D1F s) (_D2C s) (_D2F s).

(** [SHT1x(dataPin, clockPin)]; the state it starts from holds whatever
    the storage of the object contained before. *)
Definition SHT1x_init (dataPin clockPin : Z) : M unit :=
  modify_obj (set_dataPin dataPin) ;;
  modify_obj (set_clockPin clockPin) ;;
  modify_obj (set_dataInputMode INPUT) ;;
  _setConversionCoeffs (of_int DEFAULT_VOLTAGE).

(** [SHT1x(dataPin, clockPin, voltage, intPullup)]. *)
Definition SHT1x_init_voltage (dataPin clockPin : Z) (voltage : float)
    (intPullup : bool) : M unit :=
  modify_obj (set_dataPin dataPin) ;;
  modify_obj (set_clockPin clockPin) ;;
  modify_obj (set_dataInputMode (if intPullup then INPUT_PULLUP else INPUT)) ;;
  _setConversionCoeffs voltage.

(* ================================================================== *)
(** ** Conversions *)
(* ================================================================== *)

Definition parseTemperatureC (raw : Z) : M float :=
  s <- get_obj ;;
  ret (of_int raw * _D2C s + _D1C s)%f32.

Definition parseTemperatureF (raw : Z) : M float :=
  s <- get_obj ;;
  ret (of_int raw * _D2F s + _D1F s)%f32.

Definition C1 : float := (- dec 40 10)%f32.
Definition C2 : float := dec 405 10000.
Definition C3 : float := (- dec 28 10000000)%f32.
Definition T1 : float := dec 1 100.
Definition T2 : float := dec 8 100000.

Definition parseHumidity (raw : Z) : M float :=
  let linearHumidity := (C1 + C2 * of_int raw + C3 * of_int raw * of_int raw)%f32 in
  s <- get_obj ;;
  temperature <- parseTemperatureC (_temperatureRaw s) ;;
  let correctedHumidity :=
    ((temperature - dec 250 10) * (T1 + T2 * of_int raw) + linearHumidity)%f32 in
  ret correctedHumidity.

(* ================================================================== *)
(** ** The board: what the driver takes from its environment *)
(* ================================================================== *)

(** The width of [int], the macro [TIMEOUT_MILLIS] of the missing header
    (taken as a parameter, as an [unsigned long] value), and the two
    inputs of a run: the level of the data line at the k-th call of
    [digitalRead] and the value of the k-th call of [millis]. *)
Class Board : Type := mkBoard {
  int_bits : Z;
  TIMEOUT_MILLIS : Z;
  line : nat -> bool;
  clk : nat -> Z
}.

Section Driver.
Context {B : Board}.

Definition int_of (z : Z) : Z := wrap_signed int_bits z.

(** *** Arduino core calls *)

Definition pinMode (pin : Z) (m : PinMode) : M unit := emit (EvPinMode pin m).

Definition digitalWrite (pin : Z) (l : Level) : M unit :=
  emit (EvDigitalWrite pin l).

(** [digitalRead] returns [HIGH] (1) or [LOW] (0). *)
Definition digitalRead (pin : Z) : M Z :=
  fun st => Some (Z.b2z (line (nread st)),
                  mkSys (obj st) (S (nread st)) (ntime st)
                        (out st ++ [EvDigitalRead pin])).

Definition millis : M Z :=
  fun st => Some (to_ulong (clk (ntime st)),
                  mkSys (obj st) (nread st) (S (ntime st))
                        (out st ++ [EvMillis])).

(** [shiftOut(dataPin, clockPin, MSBFIRST, val)] of the core; [val] is a
    [uint8_t] there. *)
Definition shiftOut_MSBFIRST (dataPin clockPin : Z) (val : Z) : M unit :=
  emit (EvShiftOutMSB dataPin clockPin (to_uint8 val)).

(** *** Protocol primitives *)

(** The loop of [shiftIn], with [n] iterations left and accumulator [r]. *)
Fixpoint shiftIn_loop (dataPin clockPin : Z) (n : nat) (r : Z) : M Z :=
  match n with
  | O => ret r
  | S n' =>
      digitalWrite clockPin HIGH ;;
      b <- digitalRead dataPin ;;
      let r := int_of (r * 2 + b) in
      digitalWrite clockPin LOW ;;
      shiftIn_loop dataPin clockPin n' r
  end.

(** The result is returned as [uint8_t]. *)
Definition shiftIn (dataPin clockPin : Z) (numBits : Z) : M Z :=
  r <- shiftIn_loop dataPin clockPin (Z.to_nat numBits) 0 ;;
  ret (to_uint8 r).

Definition sendCommandSHT (command dataPin clockPin : Z) : M unit :=
  (* Transmission Start *)
  pinMode dataPin OUTPUT ;;
  pinMode clockPin OUTPUT ;;
  digitalWrite dataPin HIGH ;;
  digitalWrite clockPin HIGH ;;
  digitalWrite dataPin LOW ;;
  digitalWrite clockPin LOW ;;
  digitalWrite clockPin HIGH ;;
  digitalWrite dataPin HIGH ;;
  digitalWrite clockPin LOW ;;
  (* The command *)
  shiftOut_MSBFIRST dataPin clockPin command ;;
  (* The two acknowledgment reads; [ack] is never used *)
  digitalWrite clockPin HIGH ;;
  s <- get_obj ;;
  pinMode dataPin (_dataInputMode s) ;;
  ack <- digitalRead dataPin ;;
  digitalWrite clockPin LOW ;;
  ack <- digitalRead dataPin ;;
  ret tt.

(** [while (digitalRead(_dataPin) && (millis()-start) < TIMEOUT_MILLIS);]
    with at most [fuel] evaluations of the condition.  [millis] is called
    only when the line reads high. *)
Fixpoint wait_loop (fuel : nat) (dataPin : Z) (start : Z) : M unit :=
  match fuel with
  | O => fun _ => None
  | S fuel' =>
      d <- digitalRead dataPin ;;
      if d =? 0 then ret tt
      else
        now <- millis ;;
        if to_ulong (now - start) <? TIMEOUT_MILLIS
        then wait_loop fuel' dataPin start
        else ret tt
  end.

Definition waitForResultSHT (fuel : nat) (dataPin : Z) : M unit :=
  s <- get_obj ;;
  pinMode dataPin (_dataInputMode s) ;;
  start <- millis ;;
  wait_loop fuel dataPin start.

Definition getData16SHT (dataPin clockPin : Z) : M Z :=
  (* Get the most significant bits *)
  s <- get_obj ;;
  pinMode dataPin (_dataInputMode s) ;;
  pinMode clockPin OUTPUT ;;
  val <- shiftIn dataPin clockPin 8 ;;
  let val := int_of (val * 256) in
  (* Send the required ack *)
  pinMode dataPin OUTPUT ;;
  digitalWrite dataPin HIGH ;;
  digitalWrite dataPin LOW ;;
  digitalWrite clockPin HIGH ;;
  digitalWrite clockPin LOW ;;
  (* Get the least significant bits *)
  s <- get_obj ;;
  pinMode dataPin (_dataInputMode s) ;;
  low <- shiftIn dataPin clockPin 8 ;;
  let val := Z.lor val low in
  ret val.

Definition skipCrcSHT (dataPin clockPin : Z) : M unit :=
  pinMode dataPin OUTPUT ;;
  pinMode clockPin OUTPUT ;;
  digitalWrite dataPin HIGH ;;
  digitalWrite clockPin HIGH ;;
  digitalWrite clockPin LOW.

(** *** Public methods *)

Definition requestTemperature : M unit :=
  let _gTempCmd := 3 (* 0b00000011 *) in
  s <- get_obj ;;
  sendCommandSHT _gTempCmd (_dataPin s) (_clockPin s).

Definition readInTemperature (fuel : nat) : M Z :=
  s <- get_obj ;;
  waitForResultSHT fuel (_dataPin s) ;;
  v <- getData16SHT (_dataPin s) (_clockPin s) ;;
  modify_obj (set_temperatureRaw v) ;;
  skipCrcSHT (_dataPin s) (_clockPin s) ;;
  s <- get_obj ;;
  ret (_temperatureRaw s).

Definition readTemperatureC (fuel : nat) : M float :=
  requestTemperature ;;
  raw <- readInTemperature fuel ;;
  parseTemperatureC raw.

Definition readTemperatureF (fuel : nat) : M float :=
  requestTemperature ;;
  raw <- readInTemperature fuel ;;
  parseTemperatureF raw.

Definition requestHumidity : M unit :=
  let _gHumidCmd := 5 (* 0b00000101 *) in
  s <- get_obj ;;
  sendCommandSHT _gHumidCmd (_dataPin s) (_clockPin s).

(** The raw word is returned as a [float]. *)
Definition readInHumidity (fuel : nat) : M float :=
  s <- get_obj ;;
  waitForResultSHT fuel (_dataPin s) ;;
  val <- getData16SHT (_dataPin s) (_clockPin s) ;;
  skipCrcSHT (_dataPin s) (_clockPin s) ;;
  ret (of_int val).

(** [parseHumidity] takes an [int]: the [float] is converted back. *)
Definition readHumidity (fuel : nat) : M float :=
  requestHumidity ;;
  h <- readInHumidity fuel ;;
  parseHumidity (to_Z h).

End Driver.

(* ================================================================== *)
(** ** Vocabulary of the statements *)
(* ================================================================== *)

(** The object after the two slope assignments that open
    [_setConversionCoeffs]. *)
Definition with_slopes (st : Sys) : Sys :=
  set_obj (set_D2F (dec 18 1000) (set_D2C (dec 1 100) (obj st))) st.

(** [i] is the first index of the scan [i = 1 .. VALS_IN_TABLE-1] at which
    [voltage > vals[i]]. *)
Definition first_above (voltage : float) (i : nat) : Prop :=
  (1 <= i < VALS_IN_TABLE)%nat /\
  fgt voltage (idx vals i) = true /\
  forall j, (1 <= j < i)%nat -> fgt voltage (idx vals j) = false.

(** [_setConversionCoeffs voltage] returns and leaves both offsets as the
    storage of the object held them before the call. *)
Definition offsets_left_unset (voltage : float) : Prop :=
  forall st, exists st',
    _setConversionCoeffs voltage st = Some (tt, st') /\
    _D1C (obj st') = _D1C (obj st) /\
    _D1F (obj st') = _D1F (obj st).

(** The object once a constructor has stored its pins and input mode. *)
Definition with_pins (d c : Z) (m : PinMode) (st : Sys) : Sys :=
  set_obj (set_dataInputMode m (set_clockPin c (set_dataPin d (obj st)))) st.

(** Storage whose four coefficients hold the arbitrary content [g], and the
    state of a board that has made no call yet. *)
Definition raw_storage (g : float) : SHT1x := mkSHT1x 0 0 INPUT 0 g g g g.
Definition power_on (g : float) : Sys := mkSys (raw_storage g) 0 0 [].

(** The accumulator of the spec: [accumulator = accumulator*2 + bit] over
    the sampled bits, the first sampled bit ending up most significant. *)
Definition msb_value (bits : list bool) : Z :=
  fold_left (fun acc b => acc * 2 + Z.b2z b) bits 0.

Section DriverVocabulary.
Context {B : Board}.

(** The levels of the data line at the [n] reads that follow read [r]. *)
Definition samples (r n : nat) : list bool := map line (seq r n).

(** What [millis()-start] evaluates to at the [k]-th test of the ready
    poll, for a poll whose [start] is clock reading number [n0]. *)
Definition elapsed (n0 k : nat) : Z :=
  to_ulong (to_ulong (clk (S n0 + k)) - to_ulong (clk n0)).

(** The clock does not stand still for ever: some later reading shows the
    timeout interval elapsed. *)
Definition clock_live (n0 : nat) : Prop :=
  exists k, TIMEOUT_MILLIS <= elapsed n0 k.

(** The loop of the poll, entered in state [st] with [start] already read:
    its [k]-th test of the clock sees reading number [ntime st + k]. *)
Definition shown (start : Z) (st : Sys) (k : nat) : Z :=
  to_ulong (to_ulong (clk (ntime st + k)) - start).

(** The state after one [digitalRead] of pin [d], and after one [millis]. *)
Definition after_read (d : Z) (st : Sys) : Sys :=
  mkSys (obj st) (S (nread st)) (ntime st) (out st ++ [EvDigitalRead d]).
Definition after_millis (st : Sys) : Sys :=
  mkSys (obj st) (nread st) (S (ntime st)) (out st ++ [EvMillis]).

(** The state in which [waitForResultSHT] enters its loop. *)
Definition poll_entry (d : Z) (st : Sys) : Sys :=
  after_millis (mkSys (obj st) (nread st) (ntime st)
                      (out st ++ [EvPinMode d (_dataInputMode (obj st))])).

(** The calls [sendCommandSHT] makes, and the state it leaves: two more
    reads of the line, whose values appear nowhere. *)
Definition sendCommand_events (cmd d c : Z) (m : PinMode) : list Event :=
  [EvPinMode d OUTPUT; EvPinMode c OUTPUT;
   EvDigitalWrite d HIGH; EvDigitalWrite c HIGH; EvDigitalWrite d LOW;
   EvDigitalWrite c LOW; EvDigitalWrite c HIGH; EvDigitalWrite d HIGH;
   EvDigitalWrite c LOW;
   EvShiftOutMSB d c (to_uint8 cmd);
   EvDigitalWrite c HIGH; EvPinMode d m; EvDigitalRead d;
   EvDigitalWrite c LOW; EvDigitalRead d].

Definition after_sendCommand (cmd d c : Z) (st : Sys) : Sys :=
  mkSys (obj st) (S (S (nread st))) (ntime st)
        (out st ++ sendCommand_events cmd d c (_dataInputMode (obj st))).

(** A transaction once command [cmd] is sent: the ready poll returns, by
    a ready line or by the timeout, and [getData16SHT] then shifts in the
    word [raw], leaving state [st2]. *)
Definition transaction (cmd : Z) (fuel : nat) (st : Sys) (raw : Z)
    (st2 : Sys) : Prop :=
  let d := _dataPin (obj st) in
  let c := _clockPin (obj st) in
  exists st1,
    waitForResultSHT fuel d (after_sendCommand cmd d c st) = Some (tt, st1) /\
    getData16SHT d c st1 = Some (raw, st2).

(** [st'] is [st] after [dr] more reads of the line and [dt] more readings
    of the clock, the object untouched. *)
Definition advanced (st st' : Sys) (dr dt : nat) : Prop :=
  obj st' = obj st /\
  nread st' = (nread st + dr)%nat /\
  ntime st' = (ntime st + dt)%nat.

End DriverVocabulary.

(** An AVR board (16-bit [int]) with a timeout of one second. *)
Definition avr_board (l : nat -> bool) (c : nat -> Z) : Board :=
  mkBoard 16 1000 l c.

(** A data line that plays back a list of levels and idles high. *)
Definition line_of (bits : list bool) (k : nat) : bool := nth k bits true.

(** What a sensor answers to one command: the two acknowledgment samples,
    a line still busy at the first two polls and ready at the third, then
    the word 0x1900 (6400), most significant bit first. *)
Definition answer_6400 : list bool :=
  [false; true] ++ [true; true; false] ++
  [false; false; false; true;  true; false; false; true;
   false; false; false; false; false; false; false; false].

(** The object [SHT1x sht(10, 11)] on a board that has made no other call. *)
Definition default_object : Sys :=
  match exec (SHT1x_init 10 11) (power_on S754_nan) with
  | Some st => st
  | None => power_on S754_nan
  end.

(** A data line that is high at its first sample only, one that is always
    high, and a clock that advances 300 ms between two readings. *)
Definition first_high (k : nat) : bool := Nat.eqb k 0.
Definition stuck_high (k : nat) : bool := true.
Definition ticking (k : nat) : Z := 300 * Z.of_nat k.

(** A clock that stands still. *)
Definition frozen (k : nat) : Z := 0.

(** A clock whose counter is 100 ms short of rolling over when first read,
    and a sensor that answers two commands in a row with the same word. *)
Definition about_to_wrap (k : nat) : Z := 2 ^ 32 - 100 + 300 * Z.of_nat k.
Definition two_answers : list bool := answer_6400 ++ answer_6400.


(** *** Vocabulary of the further properties *)

(** The [n] low bits of [w], most significant first: what a sender puts on
    the line for [shiftIn] to sample. *)
Fixpoint bits_msb (n : nat) (w : Z) : list bool :=
  match n with
  | O => []
  | S n' => Z.testbit w (Z.of_nat n') :: bits_msb n' w
  end.

(** The calls of one pass of the loop of [shiftIn], and of [n] passes. *)
Definition pulse_events (d c : Z) : list Event :=
  [EvDigitalWrite c HIGH; EvDigitalRead d; EvDigitalWrite c LOW].

Fixpoint shiftIn_events (d c : Z) (n : nat) : list Event :=
  match n with
  | O => []
  | S n' => pulse_events d c ++ shiftIn_events d c n'
  end.

(** The calls of [skipCrcSHT] and of [getData16SHT]. *)
Definition skipCrc_events (d c : Z) : list Event :=
  [EvPinMode d OUTPUT; EvPinMode c OUTPUT;
   EvDigitalWrite d HIGH; EvDigitalWrite c HIGH; EvDigitalWrite c LOW].

Definition getData16_events (d c : Z) (m : PinMode) : list Event :=
  [EvPinMode d m; EvPinMode c OUTPUT] ++ shiftIn_events d c 8 ++
  [EvPinMode d OUTPUT; EvDigitalWrite d HIGH; EvDigitalWrite d LOW;
   EvDigitalWrite c HIGH; EvDigitalWrite c LOW; EvPinMode d m] ++
  shiftIn_events d c 8.

(** State [st] after [dr] more reads of the line and the calls [evs]. *)
Definition after_calls (st : Sys) (dr : nat) (evs : list Event) : Sys :=
  mkSys (obj st) (nread st + dr) (ntime st) (out st ++ evs).

(** What follows the command in a read: the poll, whose calls after the
    reading of [start] are [l], the 16-bit shift-in and the end of the
    transaction. *)
Definition read_tail (d c : Z) (m : PinMode) (l : list Event) : list Event :=
  [EvPinMode d m; EvMillis] ++ l ++ getData16_events d c m ++ skipCrc_events d c.

(** A call that only observes: a read of pin [d] or of the clock. *)
Definition observes (d : Z) (e : Event) : Prop :=
  e = EvDigitalRead d \/ e = EvMillis.

(** The coefficients and the wiring of an object: all of it but the cached
    raw temperature. *)
Definition same_calibration (s s' : SHT1x) : Prop :=
  _dataPin s' = _dataPin s /\ _clockPin s' = _clockPin s /\
  _dataInputMode s' = _dataInputMode s /\
  _D1C s' = _D1C s /\ _D1F s' = _D1F s /\
  _D2C s' = _D2C s /\ _D2F s' = _D2F s.

(* ================================================================== *)
(** ** Facts on binary32 comparison *)
(* ================================================================== *)

Lemma compare_cont_Eq (m1 m2 : positive) :
  Pos.compare_cont Eq m1 m2 = Pos.compare m1 m2.
Proof. reflexivity. Qed.

Ltac cmp_cases :=
  repeat match goal with
  | |- context [Z.compare ?a ?b] => destruct (Z.compare_spec a b)
  | H : context [Z.compare ?a ?b] |- _ => destruct (Z.compare_spec a b)
  | |- context [Pos.compare ?a ?b] => destruct (Pos.compare_spec a b)
  | H : context [Pos.compare ?a ?b] |- _ => destruct (Pos.compare_spec a b)
  end.

Ltac order_cases :=
  simpl; try discriminate; try reflexivity; intros;
  repeat rewrite compare_cont_Eq in *;
  cmp_cases; simpl in *; try discriminate; try reflexivity; subst; try lia.

(** [SFcompare] orders by sign, exponent and mantissa: it is transitive. *)
Lemma SFcompare_Gt_trans (a b c : float) :
  SFcompare a b = Some Gt -> SFcompare b c = Some Gt -> SFcompare a c = Some Gt.
Proof.
  destruct a as [[]|[]| |[] ma ea], b as [[]|[]| |[] mb eb],
           c as [[]|[]| |[] mc ec]; order_cases.
Qed.

Lemma fgt_trans (a b c : float) :
  fgt a b = true -> fgt b c = true -> fgt a c = true.
Proof.
  unfold fgt. intros H1 H2.
  destruct (SFcompare a b) as [[]|] eqn:E1; try discriminate.
  destruct (SFcompare b c) as [[]|] eqn:E2; try discriminate.
  now rewrite (SFcompare_Gt_trans a b c E1 E2).
Qed.

Lemma fle_not_fgt (a b : float) : fle a b = true -> fgt a b = false.
Proof.
  unfold fle, SFleb, fgt. destruct (SFcompare a b) as [[]|]; congruence.
Qed.

(** Below or at a threshold means not above any higher threshold. *)
Lemma fle_fgt_false (a b c : float) :
  fle a b = true -> fgt c b = true -> fgt a c = false.
Proof.
  intros Hle Hcb. destruct (fgt a c) eqn:E; [|reflexivity].
  pose proof (fgt_trans a c b E Hcb).
  pose proof (fle_not_fgt _ _ Hle). congruence.
Qed.

(* ================================================================== *)
(** ** The selection loop *)
(* ================================================================== *)

Lemma setConversionCoeffs_unfold (v : float) (st : Sys) :
  _setConversionCoeffs v st = coeffs_loop VALS_IN_TABLE 1 v (with_slopes st).
Proof. reflexivity. Qed.

Lemma coeffs_loop_hit (n i : nat) (v : float) (st : Sys) :
  (i < VALS_IN_TABLE)%nat -> fgt v (idx vals i) = true ->
  coeffs_loop (S n) i v st = assign_offsets i v st.
Proof.
  intros Hi Hv. cbn [coeffs_loop].
  apply Nat.ltb_lt in Hi. now rewrite Hi, Hv.
Qed.

Lemma coeffs_loop_skip (n i : nat) (v : float) (st : Sys) :
  (i < VALS_IN_TABLE)%nat -> fgt v (idx vals i) = false ->
  coeffs_loop (S n) i v st = coeffs_loop n (S i) v st.
Proof.
  intros Hi Hv. cbn [coeffs_loop].
  apply Nat.ltb_lt in Hi. now rewrite Hi, Hv.
Qed.

Lemma coeffs_loop_end (n : nat) (v : float) (st : Sys) :
  coeffs_loop (S n) VALS_IN_TABLE v st = Some (tt, st).
Proof. reflexivity. Qed.

(** The loop stops at the first index above which the voltage lies. *)
Lemma coeffs_loop_first_above (v : float) (i : nat) (st : Sys) :
  first_above v i ->
  coeffs_loop VALS_IN_TABLE 1 v st = assign_offsets i v st.
Proof.
  intros [[Hlo Hhi] [Hv Hbelow]].
  assert (Hcases : i = 1%nat \/ i = 2%nat \/ i = 3%nat \/ i = 4%nat)
    by (unfold VALS_IN_TABLE in Hhi; lia).
  unfold VALS_IN_TABLE at 1.
  destruct Hcases as [->|[->|[->| ->]]];
    repeat (first
      [ rewrite coeffs_loop_hit by (unfold VALS_IN_TABLE; first [lia | assumption])
      | rewrite coeffs_loop_skip
          by (first [unfold VALS_IN_TABLE; lia | apply Hbelow; lia]) ]);
    reflexivity.
Qed.

(** With no index above which the voltage lies the loop assigns nothing. *)
Lemma coeffs_loop_none (v : float) (st : Sys) :
  (forall j, (1 <= j < VALS_IN_TABLE)%nat -> fgt v (idx vals j) = false) ->
  coeffs_loop VALS_IN_TABLE 1 v st = Some (tt, st).
Proof.
  intros Hbelow. unfold VALS_IN_TABLE at 1.
  repeat rewrite coeffs_loop_skip
    by (first [unfold VALS_IN_TABLE; lia | apply Hbelow; unfold VALS_IN_TABLE; lia]).
  apply coeffs_loop_end.
Qed.

Lemma assign_offsets_run (i : nat) (v : float) (st : Sys) :
  exists st',
    assign_offsets i v st = Some (tt, st') /\
    _D1C (obj st') =
      (- ((idx coeffsC (i - 1) - idx coeffsC i) / idx vals (i - 1) * v
          + idx coeffsC i))%f32 /\
    _D1F (obj st') =
      (- ((idx coeffsF (i - 1) - idx coeffsF i) / idx vals (i - 1) * v
          + idx coeffsF i))%f32 /\
    _D2C (obj st') = _D2C (obj st) /\
    _D2F (obj st') = _D2F (obj st) /\
    _temperatureRaw (obj st') = _temperatureRaw (obj st).
Proof. eexists. split; [reflexivity|]. repeat split. Qed.

(** Either some index of the scan is the first one above which the voltage
    lies, or none is. *)
Lemma first_above_cases (v : float) :
  (exists i, first_above v i) \/
  (forall j, (1 <= j < VALS_IN_TABLE)%nat -> fgt v (idx vals j) = false).
Proof.
  unfold first_above, VALS_IN_TABLE.
  destruct (fgt v (idx vals 1)) eqn:E1;
    [left; exists 1%nat; repeat split; try lia; auto; intros; lia|].
  destruct (fgt v (idx vals 2)) eqn:E2;
    [left; exists 2%nat; repeat split; try lia; auto; intros j Hj;
     assert (j = 1%nat) as -> by lia; assumption|].
  destruct (fgt v (idx vals 3)) eqn:E3;
    [left; exists 3%nat; repeat split; try lia; auto; intros j Hj;
     assert (j = 1%nat \/ j = 2%nat) as [-> | ->] by lia; assumption|].
  destruct (fgt v (idx vals 4)) eqn:E4;
    [left; exists 4%nat; repeat split; try lia; auto; intros j Hj;
     assert (j = 1%nat \/ j = 2%nat \/ j = 3%nat) as [-> |[-> | ->]] by lia;
     assumption|].
  right. intros j Hj.
  assert (j = 1%nat \/ j = 2%nat \/ j = 3%nat \/ j = 4%nat)
    as [-> |[-> |[-> | ->]]] by lia; assumption.
Qed.

Lemma setConversionCoeffs_first_above (v : float) (i : nat) (st : Sys) :
  first_above v i ->
  exists st',
    _setConversionCoeffs v st = Some (tt, st') /\
    _D1C (obj st') =
      (- ((idx coeffsC (i - 1) - idx coeffsC i) / idx vals (i - 1) * v
          + idx coeffsC i))%f32 /\
    _D1F (obj st') =
      (- ((idx coeffsF (i - 1) - idx coeffsF i) / idx vals (i - 1) * v
          + idx coeffsF i))%f32 /\
    _D2C (obj st') = dec 1 100 /\
    _D2F (obj st') = dec 18 1000 /\
    _temperatureRaw (obj st') = _temperatureRaw (obj st).
Proof.
  intros Hi. rewrite setConversionCoeffs_unfold.
  rewrite (coeffs_loop_first_above v i _ Hi).
  destruct (assign_offsets_run i v (with_slopes st))
    as (st' & Hrun & HC & HF & H2C & H2F & HT).
  exists st'. repeat split; assumption.
Qed.

Lemma setConversionCoeffs_none (v : float) (st : Sys) :
  (forall j, (1 <= j < VALS_IN_TABLE)%nat -> fgt v (idx vals j) = false) ->
  _setConversionCoeffs v st = Some (tt, with_slopes st).
Proof.
  intros H. rewrite setConversionCoeffs_unfold. now apply coeffs_loop_none.
Qed.

(* ================================================================== *)
(** ** Calibration theorems *)
(* ================================================================== *)

(** C1.  The slopes are 0.01 and 0.018 for every voltage.  For a voltage
    inside the table (above [vals[4]] = 2.5, at most [vals[0]] = 5) the scan
    stops at the first index [i] of 1..4 with [voltage > vals[i]] and the
    offsets are [-((coeffs[i-1]-coeffs[i])/vals[i-1]*voltage + coeffs[i])],
    from [coeffsC] for Celsius and from [coeffsF] for Fahrenheit. *)
Theorem setConversionCoeffs_bracket :
  (forall (v : float) (st : Sys), exists st',
      _setConversionCoeffs v st = Some (tt, st') /\
      _D2C (obj st') = dec 1 100 /\ _D2F (obj st') = dec 18 1000) /\
  (forall (v : float) (st : Sys),
      fgt v (idx vals 4) = true -> fle v (idx vals 0) = true ->
      exists i st',
        first_above v i /\
        _setConversionCoeffs v st = Some (tt, st') /\
        _D1C (obj st') =
          (- ((idx coeffsC (i - 1) - idx coeffsC i) / idx vals (i - 1) * v
              + idx coeffsC i))%f32 /\
        _D1F (obj st') =
          (- ((idx coeffsF (i - 1) - idx coeffsF i) / idx vals (i - 1) * v
              + idx coeffsF i))%f32).
Proof.
  split.
  - intros v st. destruct (first_above_cases v) as [[i Hi] | Hnone].
    + destruct (setConversionCoeffs_first_above v i st Hi)
        as (st' & Hrun & _ & _ & H2C & H2F & _).
      exists st'. auto.
    + exists (with_slopes st). split; [now apply setConversionCoeffs_none|].
      split; reflexivity.
  - intros v st Hlow _.
    destruct (first_above_cases v) as [[i Hi] | Hnone].
    + destruct (setConversionCoeffs_first_above v i st Hi)
        as (st' & Hrun & HC & HF & _).
      exists i, st'. auto.
    + rewrite Hnone in Hlow by (unfold VALS_IN_TABLE; lia). discriminate.
Qed.

(** C2, as the code has it.  A voltage above [vals[0]] = 5 is above
    [vals[1]] = 4 too, so the test succeeds at the first iteration [i = 1]
    and both offsets are assigned, from the first bracket of the tables:
    [-((coeffs[0]-coeffs[1])/vals[0]*voltage + coeffs[1])]. *)
Theorem setConversionCoeffs_above_table (v : float) (st : Sys) :
  fgt v (idx vals 0) = true ->
  first_above v 1 /\
  exists st',
    _setConversionCoeffs v st = Some (tt, st') /\
    _D1C (obj st') =
      (- ((idx coeffsC 0 - idx coeffsC 1) / idx vals 0 * v + idx coeffsC 1))%f32 /\
    _D1F (obj st') =
      (- ((idx coeffsF 0 - idx coeffsF 1) / idx vals 0 * v + idx coeffsF 1))%f32.
Proof.
  intros Hv.
  assert (H1 : first_above v 1).
  { unfold first_above, VALS_IN_TABLE. repeat split; try lia.
    apply (fgt_trans v (idx vals 0) (idx vals 1) Hv). reflexivity. }
  split; [exact H1|].
  destruct (setConversionCoeffs_first_above v 1 st H1)
    as (st' & Hrun & HC & HF & _).
  exists st'. auto.
Qed.

Lemma setConversionCoeffs_bracket_witness :
  exists i st',
    first_above (dec 33 10) i /\
    _setConversionCoeffs (dec 33 10) (power_on S754_nan) = Some (tt, st') /\
    _D1C (obj st') =
      (- ((idx coeffsC (i - 1) - idx coeffsC i) / idx vals (i - 1) * dec 33 10
          + idx coeffsC i))%f32 /\
    _D1F (obj st') =
      (- ((idx coeffsF (i - 1) - idx coeffsF i) / idx vals (i - 1) * dec 33 10
          + idx coeffsF i))%f32.
Proof.
  apply (proj2 setConversionCoeffs_bracket (dec 33 10) (power_on S754_nan));
    reflexivity.
Defined.

Lemma setConversionCoeffs_above_table_witness :
  first_above (of_int 6) 1 /\
  exists st',
    _setConversionCoeffs (of_int 6) (power_on S754_nan) = Some (tt, st') /\
    _D1C (obj st') =
      (- ((idx coeffsC 0 - idx coeffsC 1) / idx vals 0 * of_int 6
          + idx coeffsC 1))%f32 /\
    _D1F (obj st') =
      (- ((idx coeffsF 0 - idx coeffsF 1) / idx vals 0 * of_int 6
          + idx coeffsF 1))%f32.
Proof.
  apply (setConversionCoeffs_above_table (of_int 6) (power_on S754_nan)).
  reflexivity.
Defined.

(** C2 as stated fails at 6 volts: 6 is above every entry of the table, and
    the Celsius offset, garbage before the call, is -40.16 after it. *)
Lemma offsets_set_at_six_volts :
  fgt (of_int 6) (idx vals 0) = true /\ ~ offsets_left_unset (of_int 6).
Proof.
  split; [reflexivity|].
  intros H. destruct (H (power_on (S754_zero false))) as (st' & Hrun & HC & _).
  vm_compute in Hrun. inversion Hrun; subst st'. discriminate HC.
Qed.

(** C3 as stated fails: at 5 volts the test at [i = 1] compares with
    [vals[1]] = 4 and succeeds. *)
Lemma five_volts_above_vals_1 :
  idx vals 1 = of_int 4 /\ ~ (fgt (of_int 5) (idx vals 1) = false).
Proof. split; [reflexivity|]. vm_compute. discriminate. Qed.

(** C3, as the code has it.  With voltage exactly 5 the test
    [voltage > vals[1]] (5 > 4) succeeds at the first iteration: there is
    no fall-through, and the offsets come from the bracket
    [(coeffs[0], coeffs[1], vals[0])], the same bracket as for every voltage
    above 4. *)
Theorem setConversionCoeffs_five_volts :
  first_above (of_int 5) 1 /\
  forall (v : float) (st : Sys),
    v = of_int 5 \/ fgt v (of_int 4) = true ->
    first_above v 1 /\
    exists st',
      _setConversionCoeffs v st = Some (tt, st') /\
      _D1C (obj st') =
        (- ((idx coeffsC 0 - idx coeffsC 1) / idx vals 0 * v + idx coeffsC 1))%f32 /\
      _D1F (obj st') =
        (- ((idx coeffsF 0 - idx coeffsF 1) / idx vals 0 * v + idx coeffsF 1))%f32.
Proof.
  assert (H5 : fgt (of_int 5) (of_int 4) = true) by reflexivity.
  assert (Hfirst : forall v, fgt v (of_int 4) = true -> first_above v 1).
  { intros v Hv. unfold first_above, VALS_IN_TABLE.
    repeat split; try lia. exact Hv. }
  split; [now apply Hfirst|].
  intros v st Hv.
  assert (H1 : first_above v 1) by (destruct Hv as [-> | Hv]; now apply Hfirst).
  split; [exact H1|].
  destruct (setConversionCoeffs_first_above v 1 st H1)
    as (st' & Hrun & HC & HF & _).
  exists st'. auto.
Qed.

Lemma setConversionCoeffs_five_volts_witness :
  first_above (dec 41 10) 1 /\
  exists st',
    _setConversionCoeffs (dec 41 10) (power_on S754_nan) = Some (tt, st') /\
    _D1C (obj st') =
      (- ((idx coeffsC 0 - idx coeffsC 1) / idx vals 0 * dec 41 10
          + idx coeffsC 1))%f32 /\
    _D1F (obj st') =
      (- ((idx coeffsF 0 - idx coeffsF 1) / idx vals 0 * dec 41 10
          + idx coeffsF 1))%f32.
Proof.
  apply (proj2 setConversionCoeffs_five_volts (dec 41 10) (power_on S754_nan)).
  right. reflexivity.
Defined.

Lemma init_voltage_unfold (d c : Z) (v : float) (p : bool) (st : Sys) :
  SHT1x_init_voltage d c v p st =
  _setConversionCoeffs v (with_pins d c (if p then INPUT_PULLUP else INPUT) st).
Proof. reflexivity. Qed.

Lemma below_table_no_index (v : float) :
  fle v (idx vals 4) = true ->
  forall j, (1 <= j < VALS_IN_TABLE)%nat -> fgt v (idx vals j) = false.
Proof.
  intros Hv j Hj. unfold VALS_IN_TABLE in Hj.
  assert (j = 1%nat \/ j = 2%nat \/ j = 3%nat \/ j = 4%nat)
    as [-> |[-> |[-> | ->]]] by lia;
    first [ now apply fle_not_fgt
          | apply (fle_fgt_false v (idx vals 4)); [exact Hv | reflexivity] ].
Qed.

(** C10.  For a constructor voltage at most [vals[4]] = 2.5 no iteration of
    the scan succeeds: the constructor assigns the two slopes and leaves
    both offsets as the storage held them, and [parseTemperatureC],
    [parseTemperatureF] and [parseHumidity] then compute with that
    never-assigned content. *)
Theorem constructor_low_voltage_offsets_uninitialised
    (d c : Z) (v : float) (p : bool) (st : Sys) :
  fle v (idx vals 4) = true ->
  (forall j, (1 <= j < VALS_IN_TABLE)%nat -> fgt v (idx vals j) = false) /\
  offsets_left_unset v /\
  exists st',
    SHT1x_init_voltage d c v p st = Some (tt, st') /\
    _D2C (obj st') = dec 1 100 /\ _D2F (obj st') = dec 18 1000 /\
    _D1C (obj st') = _D1C (obj st) /\ _D1F (obj st') = _D1F (obj st) /\
    forall raw : Z,
      parseTemperatureC raw st' =
        Some ((of_int raw * dec 1 100 + _D1C (obj st))%f32, st') /\
      parseTemperatureF raw st' =
        Some ((of_int raw * dec 18 1000 + _D1F (obj st))%f32, st') /\
      parseHumidity raw st' =
        Some (((of_int (_temperatureRaw (obj st)) * dec 1 100 + _D1C (obj st)
                - dec 250 10) * (T1 + T2 * of_int raw)
               + (C1 + C2 * of_int raw + C3 * of_int raw * of_int raw))%f32, st').
Proof.
  intros Hv. pose proof (below_table_no_index v Hv) as Hnone.
  split; [exact Hnone|]. split.
  - intros s. exists (with_slopes s).
    split; [now apply setConversionCoeffs_none|]. split; reflexivity.
  - eexists. split.
    + rewrite init_voltage_unfold. now apply setConversionCoeffs_none.
    + repeat split.
Qed.

Lemma constructor_low_voltage_witness :
  exists st',
    SHT1x_init_voltage 10 11 (of_int 2) false (power_on S754_nan) = Some (tt, st') /\
    _D1C (obj st') = S754_nan.
Proof.
  destruct (constructor_low_voltage_offsets_uninitialised
              10 11 (of_int 2) false (power_on S754_nan) eq_refl)
    as (_ & _ & st' & Hrun & _ & _ & HC & _).
  exists st'. split; [exact Hrun | exact HC].
Defined.

(* ================================================================== *)
(** ** Conversion theorems *)
(* ================================================================== *)

Lemma feq_refl (x : float) : is_nan x = false -> feq x x = true.
Proof.
  unfold feq, SFeqb.
  destruct x as [[]|[]| |[] m e]; simpl; try reflexivity; try discriminate;
    intros _; rewrite Z.compare_refl, compare_cont_Eq, Pos.compare_refl;
    reflexivity.
Qed.

(** Adding the positive zero changes nothing but the sign of a negative
    zero. *)
Lemma fadd_zero_l (x : float) :
  x <> S754_zero true -> (S754_zero false + x)%f32 = x.
Proof. destruct x as [[]|[]| |[] m e]; intros H; try reflexivity. now elim H. Qed.

Lemma fadd_zero_l_feq (x : float) :
  is_nan x = false -> feq (S754_zero false + x)%f32 x = true.
Proof.
  destruct x as [[]|[]| |[] m e]; intros H; try reflexivity; try discriminate H;
    now apply feq_refl.
Qed.

(** *** Rounding never produces a NaN *)

Lemma iter_pos_invariant {A} (P : A -> Prop) (f : A -> A) :
  (forall x, P x -> P (f x)) -> forall p x, P x -> P (iter_pos f p x).
Proof.
  intros Hf. induction p as [p IH | p IH |]; intros x Hx; cbn [iter_pos]; auto.
Qed.

Lemma shr_1_nonneg (mrs : shr_record) :
  0 <= shr_m mrs -> 0 <= shr_m (shr_1 mrs).
Proof.
  destruct mrs as [m r s]. cbn [shr_m]. intros Hm.
  destruct m as [|[p|p|]|[p|p|]]; cbn; lia.
Qed.

Lemma shr_nonneg (mrs : shr_record) (e n : Z) :
  0 <= shr_m mrs -> 0 <= shr_m (fst (shr mrs e n)).
Proof.
  intros Hm. destruct n as [|p|p]; cbn [shr fst]; try assumption.
  apply iter_pos_invariant; [apply shr_1_nonneg | assumption].
Qed.

Lemma shr_record_of_loc_m (m : Z) (l : location) :
  shr_m (shr_record_of_loc m l) = m.
Proof. destruct l as [|[]]; reflexivity. Qed.

Lemma shr_fexp_nonneg (prec emax m e : Z) (l : location) :
  0 <= m -> 0 <= shr_m (fst (shr_fexp prec emax m e l)).
Proof.
  intros Hm. unfold shr_fexp. apply shr_nonneg. now rewrite shr_record_of_loc_m.
Qed.

Lemma round_nearest_even_nonneg (m : Z) (l : location) :
  0 <= m -> 0 <= round_nearest_even m l.
Proof.
  intros Hm. destruct l as [|[]]; cbn; try lia. destruct (Z.even m); lia.
Qed.

Lemma binary_round_aux_not_nan (prec emax : Z) (s : bool) (m e : Z)
    (l : location) :
  0 <= m -> is_nan (binary_round_aux prec emax s m e l) = false.
Proof.
  intros Hm. unfold binary_round_aux.
  pose proof (shr_fexp_nonneg prec emax m e l Hm) as H1.
  destruct (shr_fexp prec emax m e l) as [mrs' e']. cbn [fst] in H1.
  pose proof (shr_fexp_nonneg prec emax
                (round_nearest_even (shr_m mrs') (loc_of_shr_record mrs'))
                e' loc_Exact (round_nearest_even_nonneg _ _ H1)) as H2.
  destruct (shr_fexp prec emax _ e' loc_Exact) as [mrs'' e'']. cbn [fst] in H2.
  destruct (shr_m mrs'') as [|p|p]; try reflexivity; [|lia].
  destruct (e'' <=? emax - prec); reflexivity.
Qed.

Lemma binary_normalize_not_nan (prec emax m e : Z) (sz : bool) :
  is_nan (binary_normalize prec emax m e sz) = false.
Proof.
  destruct m as [|p|p]; cbn [binary_normalize]; try reflexivity;
    unfold binary_round; destruct (shl_align _ _ _) as [mz ez];
    apply binary_round_aux_not_nan; lia.
Qed.

Lemma fmul_finite_not_nan (s : bool) (m : positive) (e : Z) (y : float) :
  is_nan y = false -> is_nan (S754_finite s m e * y)%f32 = false.
Proof.
  destruct y as [sy|sy| |sy my ey]; intros H; try reflexivity; try discriminate.
  unfold fmul. cbn [SFmul]. apply binary_round_aux_not_nan. lia.
Qed.

Lemma fadd_finite_not_nan (x : float) (s : bool) (m : positive) (e : Z) :
  is_nan x = false -> is_nan (x + S754_finite s m e)%f32 = false.
Proof.
  destruct x as [sx|sx| |sx mx ex]; intros H; try reflexivity; try discriminate.
  unfold fadd. cbn [SFadd]. apply binary_normalize_not_nan.
Qed.

Lemma fgt_not_nan (x y : float) : fgt x y = true -> is_nan x = false.
Proof. destruct x; try reflexivity. discriminate. Qed.

(** The slope and the base of every bracket of the tables are finite, so an
    interpolated offset is a number whenever the voltage is. *)
Lemma bracket_offset_not_nan (tbl : list float) (i : nat) (v : float) :
  tbl = coeffsC \/ tbl = coeffsF ->
  (1 <= i < VALS_IN_TABLE)%nat -> is_nan v = false ->
  is_nan (- ((idx tbl (i - 1) - idx tbl i) / idx vals (i - 1) * v
             + idx tbl i))%f32 = false.
Proof.
  intros Htbl Hi Hv. unfold VALS_IN_TABLE in Hi.
  assert (Hneg : forall x, is_nan x = false -> is_nan (- x)%f32 = false)
    by (intros [| | |]; auto).
  apply Hneg.
  assert (Hcases : i = 1%nat \/ i = 2%nat \/ i = 3%nat \/ i = 4%nat) by lia.
  destruct Htbl as [-> | ->]; destruct Hcases as [-> |[-> |[-> | ->]]];
    match goal with
    | |- is_nan (?k * v + ?b)%f32 = false =>
        let k' := eval vm_compute in k in
        let b' := eval vm_compute in b in
        change (is_nan (k' * v + b')%f32 = false)
    end;
    apply fadd_finite_not_nan; apply fmul_finite_not_nan; exact Hv.
Qed.

(** C5.  [parseTemperatureC raw] is [raw * _D2C + _D1C] and
    [parseTemperatureF raw] is [raw * _D2F + _D1F], the object unchanged.
    With the slope 0.01 every constructor assigns, the Celsius value of the
    raw sample 0 equals ([==]) the Celsius offset, whenever that offset is a
    number; it is the very same binary32 value unless the offset is the
    negative zero.  The offset is a number in every object built with a
    voltage above [vals[4]] = 2.5. *)
Theorem parseTemperature_formula (raw : Z) (st : Sys) :
  parseTemperatureC raw st =
    Some ((of_int raw * _D2C (obj st) + _D1C (obj st))%f32, st) /\
  parseTemperatureF raw st =
    Some ((of_int raw * _D2F (obj st) + _D1F (obj st))%f32, st) /\
  (_D2C (obj st) = dec 1 100 -> is_nan (_D1C (obj st)) = false ->
   exists c0,
     parseTemperatureC 0 st = Some (c0, st) /\
     feq c0 (_D1C (obj st)) = true /\
     (_D1C (obj st) <> S754_zero true -> c0 = _D1C (obj st))) /\
  (forall (d c : Z) (v : float) (p : bool) (st0 : Sys),
     fgt v (idx vals 4) = true ->
     exists st' c0,
       SHT1x_init_voltage d c v p st0 = Some (tt, st') /\
       parseTemperatureC 0 st' = Some (c0, st') /\
       feq c0 (_D1C (obj st')) = true).
Proof.
  split; [reflexivity|]. split; [reflexivity|].
  assert (Hzero : forall s : Sys,
             _D2C (obj s) = dec 1 100 -> is_nan (_D1C (obj s)) = false ->
             exists c0,
               parseTemperatureC 0 s = Some (c0, s) /\
               feq c0 (_D1C (obj s)) = true /\
               (_D1C (obj s) <> S754_zero true -> c0 = _D1C (obj s))).
  { intros s H2C Hnan. eexists. split; [reflexivity|].
    rewrite H2C.
    change (of_int 0 * dec 1 100)%f32 with (S754_zero false).
    split; [now apply fadd_zero_l_feq | apply fadd_zero_l]. }
  split; [apply Hzero|].
  intros d c v p st0 Hv.
  destruct (first_above_cases v) as [[i Hi] | Hnone];
    [|rewrite Hnone in Hv by (unfold VALS_IN_TABLE; lia); discriminate].
  rewrite init_voltage_unfold.
  destruct (setConversionCoeffs_first_above v i
              (with_pins d c (if p then INPUT_PULLUP else INPUT) st0) Hi)
    as (st' & Hrun & HC & _ & H2C & _).
  destruct (Hzero st' H2C) as (c0 & Hc0 & Heq & _).
  { rewrite HC. apply bracket_offset_not_nan; [now left | apply Hi |].
    now apply fgt_not_nan in Hv. }
  exists st', c0. repeat split; assumption.
Qed.

Lemma parseTemperature_formula_witness :
  exists c0,
    parseTemperatureC 0 (with_slopes (power_on (of_int (-40)))) =
      Some (c0, with_slopes (power_on (of_int (-40)))) /\
    feq c0 (of_int (-40)) = true.
Proof.
  destruct (proj1 (proj2 (proj2 (parseTemperature_formula
              0 (with_slopes (power_on (of_int (-40)))))))
              eq_refl eq_refl) as (c0 & Hrun & Heq & _).
  exists c0. split; [exact Hrun | exact Heq].
Defined.

(** C4.  [parseHumidity raw] is
    [(parseTemperatureC(t) - 25.0) * (0.01 + 0.00008*raw)
     + (-4.0 + 0.0405*raw + (-0.0000028)*raw*raw)]
    for the cached raw temperature [t], the object unchanged; with [t = 0]
    and [raw = 0] this is exactly [(celsius(0) - 25.0) * 0.01 + (-4.0)]. *)
Theorem parseHumidity_formula (raw : Z) (st : Sys) :
  (exists t,
     parseTemperatureC (_temperatureRaw (obj st)) st = Some (t, st) /\
     parseHumidity raw st =
       Some (((t - dec 250 10) * (dec 1 100 + dec 8 100000 * of_int raw)
              + (- dec 40 10 + dec 405 10000 * of_int raw
                 + (- dec 28 10000000) * of_int raw * of_int raw))%f32, st)) /\
  (_temperatureRaw (obj st) = 0 ->
   exists c0,
     parseTemperatureC 0 st = Some (c0, st) /\
     parseHumidity 0 st =
       Some (((c0 - dec 250 10) * dec 1 100 + (- dec 40 10))%f32, st)).
Proof.
  split.
  - eexists. split; reflexivity.
  - intros Ht. eexists. split; [reflexivity|].
    unfold parseHumidity, bind, get_obj, parseTemperatureC, ret.
    rewrite Ht.
    change (T1 + T2 * of_int 0)%f32 with (dec 1 100).
    change (C1 + C2 * of_int 0 + C3 * of_int 0 * of_int 0)%f32
      with (- dec 40 10)%f32.
    reflexivity.
Qed.

Lemma parseHumidity_formula_witness :
  exists c0,
    parseTemperatureC 0 (power_on (of_int 7)) = Some (c0, power_on (of_int 7)) /\
    parseHumidity 0 (power_on (of_int 7)) =
      Some (((c0 - dec 250 10) * dec 1 100 + (- dec 40 10))%f32,
            power_on (of_int 7)).
Proof.
  apply (proj2 (parseHumidity_formula 0 (power_on (of_int 7)))).
  reflexivity.
Defined.

(* ================================================================== *)
(** ** Integer facts *)
(* ================================================================== *)

Lemma wrap_signed_mod (w k z : Z) :
  0 <= k <= w -> wrap_signed w z mod 2 ^ k = z mod 2 ^ k.
Proof.
  intros Hk. unfold wrap_signed.
  assert (Hpow : 2 ^ w = 2 ^ k * 2 ^ (w - k)).
  { rewrite <- Z.pow_add_r by lia. f_equal. lia. }
  assert (H2w : 0 < 2 ^ w) by (apply Z.pow_pos_nonneg; lia).
  rewrite (Z.mod_eq (z + 2 ^ (w - 1)) (2 ^ w)) by lia.
  set (q := (z + 2 ^ (w - 1)) / 2 ^ w).
  replace (z + 2 ^ (w - 1) - 2 ^ w * q - 2 ^ (w - 1))
    with (z + (- q * 2 ^ (w - k)) * 2 ^ k) by (rewrite Hpow; ring).
  apply Z.mod_add.
  assert (0 < 2 ^ k) by (apply Z.pow_pos_nonneg; lia). lia.
Qed.

Lemma wrap_signed_small (w z : Z) :
  1 <= w -> - 2 ^ (w - 1) <= z < 2 ^ (w - 1) -> wrap_signed w z = z.
Proof.
  intros Hw Hz. unfold wrap_signed.
  assert (Hpow : 2 ^ w = 2 * 2 ^ (w - 1)).
  { replace w with (1 + (w - 1)) at 1 by lia.
    rewrite Z.pow_add_r by lia. reflexivity. }
  rewrite Z.mod_small by lia. lia.
Qed.

(** OR-ing a byte into a value whose low byte is clear adds it. *)
Lemma lor_low_byte (a b : Z) :
  a mod 256 = 0 -> 0 <= b < 256 -> Z.lor a b = a + b.
Proof.
  intros Ha Hb.
  assert (Hland : Z.land a b = 0).
  { apply Z.bits_inj'. intros n Hn. rewrite Z.land_spec, Z.bits_0.
    destruct (Z.lt_ge_cases n 8) as [Hlt | Hge].
    - replace (Z.testbit a n) with false; [reflexivity|].
      symmetry.
      assert (Ea : a = Z.shiftl (a / 256) 8).
      { rewrite Z.shiftl_mul_pow2 by lia. change (2 ^ 8) with 256.
        rewrite (Z.div_mod a 256) at 1 by lia. lia. }
      rewrite Ea. apply Z.shiftl_spec_low. assumption.
    - replace (Z.testbit b n) with false; [apply andb_false_r|].
      symmetry. destruct (Z.eq_dec b 0) as [-> | Hnz]; [apply Z.bits_0|].
      apply Z.bits_above_log2; [lia|].
      assert (Z.log2 b < 8); [|lia].
      apply Z.log2_lt_pow2; [lia|]. change (2 ^ 8) with 256. lia. }
  rewrite <- Z.lxor_lor by assumption.
  symmetry. apply Z.add_nocarry_lxor. assumption.
Qed.

Lemma fold_msb_bounds (bits : list bool) (a : Z) :
  0 <= a ->
  a * 2 ^ Z.of_nat (length bits)
    <= fold_left (fun acc b => acc * 2 + Z.b2z b) bits a
    < (a + 1) * 2 ^ Z.of_nat (length bits).
Proof.
  revert a. induction bits as [|b t IH]; intros a Ha.
  - simpl. lia.
  - cbn [fold_left length]. rewrite Nat2Z.inj_succ, Z.pow_succ_r by lia.
    assert (Hb : 0 <= Z.b2z b <= 1) by (destruct b; simpl; lia).
    specialize (IH (a * 2 + Z.b2z b) ltac:(lia)).
    assert (0 < 2 ^ Z.of_nat (length t)) by (apply Z.pow_pos_nonneg; lia).
    nia.
Qed.

Lemma msb_value_bounds (bits : list bool) :
  0 <= msb_value bits < 2 ^ Z.of_nat (length bits).
Proof.
  pose proof (fold_msb_bounds bits 0 ltac:(lia)). unfold msb_value. lia.
Qed.

(* ================================================================== *)
(** ** Protocol primitives *)
(* ================================================================== *)

Section DriverFacts.
Context {B : Board}.

Lemma advanced_refl (st : Sys) : advanced st st 0 0.
Proof. unfold advanced. repeat split; lia. Qed.

Lemma advanced_trans (st1 st2 st3 : Sys) (r1 t1 r2 t2 : nat) :
  advanced st1 st2 r1 t1 -> advanced st2 st3 r2 t2 ->
  advanced st1 st3 (r1 + r2) (t1 + t2).
Proof.
  unfold advanced. intros (Ho1 & Hr1 & Ht1) (Ho2 & Hr2 & Ht2).
  repeat split; [congruence | lia | lia].
Qed.

Lemma emit_advanced (e : Event) (st : Sys) :
  exists st', emit e st = Some (tt, st') /\ advanced st st' 0 0.
Proof.
  eexists. split; [reflexivity|]. unfold advanced; simpl. repeat split; lia.
Qed.

Lemma samples_length (r n : nat) : length (samples r n) = n.
Proof. unfold samples. now rewrite length_map, length_seq. Qed.

Lemma samples_succ (r n : nat) :
  samples r (S n) = line r :: samples (S r) n.
Proof. reflexivity. Qed.

(** The accumulator the loop of [shiftIn] computes in [int] arithmetic. *)
Lemma shiftIn_loop_run (d c : Z) (n : nat) (r : Z) (st : Sys) :
  exists st',
    shiftIn_loop d c n r st =
      Some (fold_left (fun acc b => int_of (acc * 2 + Z.b2z b))
                      (samples (nread st) n) r, st') /\
    advanced st st' n 0.
Proof.
  revert r st. induction n as [|n IH]; intros r st.
  - exists st. split; [reflexivity | apply advanced_refl].
  - cbn [shiftIn_loop]. unfold bind at 1. unfold digitalWrite at 1.
    cbn [emit]. unfold bind at 1. unfold digitalRead at 1.
    unfold bind at 1. unfold digitalWrite at 1. cbn [emit].
    match goal with |- context [shiftIn_loop d c n ?r' ?s'] =>
      destruct (IH r' s') as (st' & Hrun & Hobj & Hr & Ht) end.
    exists st'. split.
    + rewrite Hrun. rewrite samples_succ. reflexivity.
    + cbn in Hobj, Hr, Ht. unfold advanced. repeat split; [assumption|lia|lia].
Qed.

(** Modulo a power of two that divides 2^[int_bits] the wrap-around of
    the accumulator is invisible. *)
Lemma fold_wrapped_mod (k : Z) (bits : list bool) (r r' : Z) :
  0 <= k <= int_bits ->
  r mod 2 ^ k = r' mod 2 ^ k ->
  fold_left (fun acc b => int_of (acc * 2 + Z.b2z b)) bits r mod 2 ^ k =
  fold_left (fun acc b => acc * 2 + Z.b2z b) bits r' mod 2 ^ k.
Proof.
  intros Hk. revert r r'. induction bits as [|b t IH]; intros r r' Hr.
  - exact Hr.
  - cbn [fold_left]. apply IH. unfold int_of.
    rewrite wrap_signed_mod by assumption.
    rewrite <- (Zplus_mod_idemp_l (r * 2)), <- (Zmult_mod_idemp_l r), Hr.
    rewrite Zmult_mod_idemp_l, Zplus_mod_idemp_l. reflexivity.
Qed.

(** [shiftIn] returns the accumulator reduced to a [uint8_t]. *)
Lemma shiftIn_run (d c numBits : Z) (st : Sys) :
  8 <= int_bits ->
  exists st',
    shiftIn d c numBits st =
      Some (msb_value (samples (nread st) (Z.to_nat numBits)) mod 256, st') /\
    advanced st st' (Z.to_nat numBits) 0.
Proof.
  intros Hw. unfold shiftIn, bind.
  destruct (shiftIn_loop_run d c (Z.to_nat numBits) 0 st) as (st' & Hrun & Hadv).
  rewrite Hrun. exists st'. split; [|exact Hadv].
  unfold ret, to_uint8, msb_value. f_equal. f_equal.
  apply (fold_wrapped_mod 8); [lia | reflexivity].
Qed.

Lemma msb_value_byte (r n : nat) :
  (n <= 8)%nat -> 0 <= msb_value (samples r n) < 256.
Proof.
  intros Hn. pose proof (msb_value_bounds (samples r n)) as Hb.
  rewrite samples_length in Hb.
  assert (2 ^ Z.of_nat n <= 2 ^ 8) by (apply Z.pow_le_mono_r; lia).
  change (2 ^ 8) with 256 in *. lia.
Qed.

Lemma shiftIn_byte (d c : Z) (st : Sys) :
  8 <= int_bits ->
  exists st',
    shiftIn d c 8 st = Some (msb_value (samples (nread st) 8), st') /\
    advanced st st' 8 0.
Proof.
  intros Hw. destruct (shiftIn_run d c 8 st Hw) as (st' & Hrun & Hadv).
  exists st'. split; [|exact Hadv].
  rewrite Hrun. change (Z.to_nat 8) with 8%nat.
  rewrite Z.mod_small by (apply msb_value_byte; lia). reflexivity.
Qed.

(** Runs the calls that always return, reducing the projections of each
    state as it is built. *)
Ltac run_prims :=
  cbn [bind get_obj modify_obj set_obj pinMode digitalWrite emit ret
       obj nread ntime out].

Lemma getData16SHT_run (d c : Z) (st : Sys) :
  8 <= int_bits ->
  exists st',
    getData16SHT d c st =
      Some (Z.lor (int_of (msb_value (samples (nread st) 8) * 256))
                  (msb_value (samples (nread st + 8) 8)), st') /\
    advanced st st' 16 0.
Proof.
  intros Hw. unfold getData16SHT. run_prims. unfold bind at 1.
  match goal with |- context [shiftIn d c 8 ?s] =>
    destruct (shiftIn_byte d c s Hw) as (st1 & Hrun1 & Ho1 & Hr1 & Ht1) end.
  rewrite Hrun1. run_prims. unfold bind at 1.
  match goal with |- context [shiftIn d c 8 ?s] =>
    destruct (shiftIn_byte d c s Hw) as (st2 & Hrun2 & Ho2 & Hr2 & Ht2) end.
  rewrite Hrun2. run_prims. cbn [obj nread ntime out] in *.
  exists st2. split.
  - rewrite Hr1. reflexivity.
  - unfold advanced. repeat split; [congruence | lia | lia].
Qed.

(** The [int] that [getData16SHT] assembles from a high and a low byte. *)
Lemma word16_value (hi lo : Z) :
  16 <= int_bits -> 0 <= hi < 256 -> 0 <= lo < 256 ->
  Z.lor (int_of (hi * 256)) lo = int_of (hi * 256) + lo /\
  to_uint16 (Z.lor (int_of (hi * 256)) lo) = hi * 256 + lo /\
  (16 < int_bits \/ hi < 128 -> Z.lor (int_of (hi * 256)) lo = hi * 256 + lo).
Proof.
  intros Hw Hhi Hlo.
  assert (Hlow : int_of (hi * 256) mod 256 = 0).
  { unfold int_of. change 256 with (2 ^ 8) at 2.
    rewrite wrap_signed_mod by lia. change (2 ^ 8) with 256.
    apply Z.mod_mul. lia. }
  assert (Hlor : Z.lor (int_of (hi * 256)) lo = int_of (hi * 256) + lo)
    by (apply lor_low_byte; assumption).
  split; [exact Hlor|]. split.
  - rewrite Hlor. unfold to_uint16.
    rewrite <- Zplus_mod_idemp_l. unfold int_of.
    change 65536 with (2 ^ 16). rewrite wrap_signed_mod by lia.
    rewrite Zplus_mod_idemp_l. change (2 ^ 16) with 65536.
    apply Z.mod_small. lia.
  - intros Hexact. rewrite Hlor. unfold int_of.
    rewrite wrap_signed_small; [reflexivity | lia |].
    destruct Hexact as [Hwide | Hsmall].
    + assert (2 ^ 16 <= 2 ^ (int_bits - 1)) by (apply Z.pow_le_mono_r; lia).
      change (2 ^ 16) with 65536 in *. lia.
    + assert (2 ^ 15 <= 2 ^ (int_bits - 1)) by (apply Z.pow_le_mono_r; lia).
      change (2 ^ 15) with 32768 in *. lia.
Qed.

(** C6, as the code has it.  [shiftIn] over [numBits] clock pulses returns
    the accumulator [accumulator = accumulator*2 + sampled bit]
    (most significant bit first) reduced modulo 256, its return type being
    [uint8_t]: the accumulator itself for [numBits <= 8].  [getData16SHT]
    returns (shiftIn of 8 bits)*256 OR-ed with a second shiftIn of 8 bits,
    the 16-bit value [highByte*256 + lowByte], the high byte sampled
    first.  As an [int] this is that very number when [int] has more than
    16 bits or the high byte is below 128. *)
Theorem shiftIn_getData16SHT (d c : Z) (st : Sys) :
  16 <= int_bits ->
  (forall numBits : Z,
     let acc := msb_value (samples (nread st) (Z.to_nat numBits)) in
     (exists st',
        shiftIn d c numBits st = Some (acc mod 256, st') /\
        advanced st st' (Z.to_nat numBits) 0) /\
     (numBits <= 8 -> acc mod 256 = acc)) /\
  (let hi := msb_value (samples (nread st) 8) in
   let lo := msb_value (samples (nread st + 8) 8) in
   exists v st',
     getData16SHT d c st = Some (v, st') /\
     advanced st st' 16 0 /\
     v = Z.lor (int_of (hi * 256)) lo /\
     to_uint16 v = hi * 256 + lo /\
     (16 < int_bits \/ hi < 128 -> v = hi * 256 + lo)).
Proof.
  intros Hw. split.
  - intros numBits acc. split.
    + apply shiftIn_run. lia.
    + intros Hn. apply Z.mod_small. apply msb_value_byte. lia.
  - intros hi lo.
    destruct (getData16SHT_run d c st ltac:(lia)) as (st' & Hrun & Hadv).
    destruct (word16_value hi lo Hw) as (_ & H16 & Hexact);
      try (apply msb_value_byte; lia).
    eexists. exists st'. split; [exact Hrun|]. split; [exact Hadv|].
    split; [reflexivity|]. split; assumption.
Qed.

(** *** The ready poll *)

Lemma timeout_before_cases (n0 k : nat) :
  (forall j, (j < k)%nat -> elapsed n0 j < TIMEOUT_MILLIS) \/
  (exists j, (j < k)%nat /\ TIMEOUT_MILLIS <= elapsed n0 j).
Proof.
  induction k as [|k [Hall | (j & Hj & Hjk)]].
  - left. intros j Hj. lia.
  - destruct (Z.lt_ge_cases (elapsed n0 k) TIMEOUT_MILLIS) as [Hlt | Hge].
    + left. intros j Hj.
      destruct (Nat.eq_dec j k) as [-> | Hne]; [assumption | apply Hall; lia].
    + right. exists k. split; [lia | assumption].
  - right. exists j. split; [lia | assumption].
Qed.

(** The first reading of the clock that shows the timeout elapsed. *)
Lemma first_timeout (n0 : nat) :
  clock_live n0 ->
  exists k, TIMEOUT_MILLIS <= elapsed n0 k /\
            forall j, (j < k)%nat -> elapsed n0 j < TIMEOUT_MILLIS.
Proof.
  intros [k Hk]. revert Hk.
  induction k as [k IH] using (well_founded_induction Wf_nat.lt_wf).
  intros Hk.
  destruct (timeout_before_cases n0 k) as [Hall | (j & Hj & Hjk)].
  - exists k. split; assumption.
  - now apply (IH j).
Qed.

Lemma wait_loop_step_low (fuel : nat) (d start : Z) (st : Sys) :
  line (nread st) = false ->
  wait_loop (S fuel) d start st = Some (tt, after_read d st).
Proof.
  intros Hl. cbn [wait_loop]. unfold bind, digitalRead. rewrite Hl.
  reflexivity.
Qed.

Lemma wait_loop_step_timeout (fuel : nat) (d start : Z) (st : Sys) :
  line (nread st) = true -> TIMEOUT_MILLIS <= shown start st 0 ->
  wait_loop (S fuel) d start st = Some (tt, after_millis (after_read d st)).
Proof.
  unfold shown. rewrite Nat.add_0_r. intros Hl Ht.
  cbn [wait_loop]. unfold bind, digitalRead, millis. rewrite Hl.
  cbn [Z.b2z Z.eqb obj nread ntime out].
  apply Z.ltb_ge in Ht. rewrite Ht. reflexivity.
Qed.

Lemma wait_loop_step_again (fuel : nat) (d start : Z) (st : Sys) :
  line (nread st) = true -> shown start st 0 < TIMEOUT_MILLIS ->
  wait_loop (S fuel) d start st =
  wait_loop fuel d start (after_millis (after_read d st)).
Proof.
  unfold shown. rewrite Nat.add_0_r. intros Hl Ht.
  cbn [wait_loop]. unfold bind, digitalRead, millis. rewrite Hl.
  cbn [Z.b2z Z.eqb obj nread ntime out].
  apply Z.ltb_lt in Ht. rewrite Ht. reflexivity.
Qed.

Lemma shown_next (d start : Z) (st : Sys) (k : nat) :
  shown start (after_millis (after_read d st)) k = shown start st (S k).
Proof.
  unfold shown. cbn [ntime after_millis after_read].
  now rewrite Nat.add_succ_r.
Qed.

Lemma advanced_step (d : Z) (st st' : Sys) (dr dt : nat) :
  advanced (after_millis (after_read d st)) st' dr dt ->
  advanced st st' (S dr) (S dt).
Proof.
  unfold advanced. cbn [obj nread ntime after_millis after_read].
  intros (Ho & Hr & Ht). repeat split; [assumption | lia | lia].
Qed.

(** Whatever the line does, the loop ends by the first reading of the clock
    that shows the timeout elapsed. *)
Lemma wait_loop_terminates (d start : Z) (k : nat) (st : Sys) :
  TIMEOUT_MILLIS <= shown start st k ->
  exists st' dr dt,
    (forall fuel, (k < fuel)%nat -> wait_loop fuel d start st = Some (tt, st')) /\
    advanced st st' dr dt /\ (dr <= S k)%nat /\ (dt <= S k)%nat.
Proof.
  revert st. induction k as [|k IH]; intros st Hk.
  - destruct (line (nread st)) eqn:Hl.
    + exists (after_millis (after_read d st)), 1%nat, 1%nat.
      split; [|split; [|lia]].
      * intros [|fuel] Hf; [lia|]. now apply wait_loop_step_timeout.
      * unfold advanced; cbn. repeat split; lia.
    + exists (after_read d st), 1%nat, 0%nat.
      split; [|split; [|lia]].
      * intros [|fuel] Hf; [lia|]. now apply wait_loop_step_low.
      * unfold advanced; cbn. repeat split; lia.
  - destruct (line (nread st)) eqn:Hl.
    + destruct (Z.lt_ge_cases (shown start st 0) TIMEOUT_MILLIS) as [Hlt | Hge].
      * rewrite <- shown_next with (d := d) in Hk.
        destruct (IH _ Hk) as (st' & dr & dt & Hrun & Hadv & Hdr & Hdt).
        exists st', (S dr), (S dt). split; [|split; [|lia]].
        -- intros [|fuel] Hf; [lia|].
           rewrite wait_loop_step_again by assumption. apply Hrun. lia.
        -- now apply advanced_step with (d := d).
      * exists (after_millis (after_read d st)), 1%nat, 1%nat.
        split; [|split; [|lia]].
        -- intros [|fuel] Hf; [lia|]. now apply wait_loop_step_timeout.
        -- unfold advanced; cbn. repeat split; lia.
    + exists (after_read d st), 1%nat, 0%nat.
      split; [|split; [|lia]].
      * intros [|fuel] Hf; [lia|]. now apply wait_loop_step_low.
      * unfold advanced; cbn. repeat split; lia.
Qed.

(** With the line high throughout, the loop ends exactly at the first
    reading of the clock that shows the timeout elapsed. *)
Lemma wait_loop_timeout_exit (d start : Z) (k : nat) (st : Sys) :
  (forall j, (j <= k)%nat -> line (nread st + j) = true) ->
  (forall j, (j < k)%nat -> shown start st j < TIMEOUT_MILLIS) ->
  TIMEOUT_MILLIS <= shown start st k ->
  exists st',
    (forall fuel, (k < fuel)%nat -> wait_loop fuel d start st = Some (tt, st')) /\
    advanced st st' (S k) (S k).
Proof.
  revert st. induction k as [|k IH]; intros st Hline Hbefore Hk.
  - exists (after_millis (after_read d st)). split.
    + intros [|fuel] Hf; [lia|]. apply wait_loop_step_timeout; [|assumption].
      rewrite <- (Nat.add_0_r (nread st)). apply Hline. lia.
    + unfold advanced; cbn. repeat split; lia.
  - destruct (IH (after_millis (after_read d st))) as (st' & Hrun & Hadv).
    + intros j Hj. cbn [nread after_millis after_read].
      replace (S (nread st) + j)%nat with (nread st + S j)%nat by lia.
      apply Hline. lia.
    + intros j Hj. rewrite shown_next. apply Hbefore. lia.
    + now rewrite shown_next.
    + exists st'. split; [|now apply advanced_step with (d := d)].
      intros [|fuel] Hf; [lia|].
      rewrite wait_loop_step_again.
      * apply Hrun. lia.
      * rewrite <- (Nat.add_0_r (nread st)). apply Hline. lia.
      * apply Hbefore. lia.
Qed.

Lemma waitForResultSHT_unfold (fuel : nat) (d : Z) (st : Sys) :
  waitForResultSHT fuel d st =
  wait_loop fuel d (to_ulong (clk (ntime st))) (poll_entry d st).
Proof. reflexivity. Qed.

Lemma poll_entry_advanced (d : Z) (st : Sys) :
  advanced st (poll_entry d st) 0 1.
Proof. unfold advanced; cbn. repeat split; lia. Qed.

Lemma poll_entry_shown (d : Z) (st : Sys) (k : nat) :
  shown (to_ulong (clk (ntime st))) (poll_entry d st) k = elapsed (ntime st) k.
Proof. reflexivity. Qed.

(** C7.  Provided the clock does not stand still for ever,
    [waitForResultSHT] returns whatever the data line does: with [k] the
    first test at which the clock shows the timeout interval elapsed since
    entry, it returns within [k+1] tests.  When the line never reads low it
    returns at that test exactly: after [k+1] reads of the line and [k+2]
    readings of the clock ([start] included), the last of which is the
    first to show the timeout elapsed. *)
Theorem waitForResultSHT_returns (d : Z) (st : Sys) :
  clock_live (ntime st) ->
  exists k,
    TIMEOUT_MILLIS <= elapsed (ntime st) k /\
    (forall j, (j < k)%nat -> elapsed (ntime st) j < TIMEOUT_MILLIS) /\
    (exists st' dr dt,
       (forall fuel, (k < fuel)%nat ->
          waitForResultSHT fuel d st = Some (tt, st')) /\
       advanced st st' dr dt /\ (dr <= S k)%nat /\ (dt <= S (S k))%nat) /\
    ((forall j, line (nread st + j) = true) ->
     exists st',
       (forall fuel, (k < fuel)%nat ->
          waitForResultSHT fuel d st = Some (tt, st')) /\
       advanced st st' (S k) (S (S k))).
Proof.
  intros Hlive.
  destruct (first_timeout _ Hlive) as (k & Hk & Hbefore).
  exists k. split; [exact Hk|]. split; [exact Hbefore|].
  pose proof (poll_entry_advanced d st) as Hadv1.
  pose proof (poll_entry_shown d st) as Hshown.
  pose proof (fun fuel => waitForResultSHT_unfold fuel d st) as Hunf.
  set (st1 := poll_entry d st) in *.
  split.
  - destruct (wait_loop_terminates d (to_ulong (clk (ntime st))) k st1)
      as (st' & dr & dt & Hrun & Hadv & Hdr & Hdt).
    { now rewrite Hshown. }
    exists st', dr, (S dt). split; [|split; [|lia]].
    + intros fuel Hf. rewrite Hunf. now apply Hrun.
    + pose proof (advanced_trans _ _ _ _ _ _ _ Hadv1 Hadv) as H.
      exact H.
  - intros Hhigh.
    destruct (wait_loop_timeout_exit d (to_ulong (clk (ntime st))) k st1)
      as (st' & Hrun & Hadv).
    + intros j _. destruct Hadv1 as (_ & Hr & _). rewrite Hr, Nat.add_0_r.
      apply Hhigh.
    + intros j Hj. rewrite Hshown. now apply Hbefore.
    + now rewrite Hshown.
    + exists st'. split.
      * intros fuel Hf. rewrite Hunf. now apply Hrun.
      * pose proof (advanced_trans _ _ _ _ _ _ _ Hadv1 Hadv) as H.
        exact H.
Qed.

(** *** Transactions *)

Lemma sendCommandSHT_run (cmd d c : Z) (st : Sys) :
  sendCommandSHT cmd d c st = Some (tt, after_sendCommand cmd d c st).
Proof.
  unfold sendCommandSHT, after_sendCommand, sendCommand_events.
  unfold shiftOut_MSBFIRST, digitalRead. run_prims.
  repeat rewrite <- app_assoc. reflexivity.
Qed.

Lemma skipCrcSHT_run (d c : Z) (st : Sys) :
  exists st', skipCrcSHT d c st = Some (tt, st') /\ advanced st st' 0 0.
Proof.
  eexists. split; [reflexivity|]. unfold advanced; cbn. repeat split; lia.
Qed.

Lemma wait_loop_frame (fuel : nat) (d start : Z) (st st' : Sys) (u : unit) :
  wait_loop fuel d start st = Some (u, st') -> obj st' = obj st.
Proof.
  revert st. induction fuel as [|fuel IH]; intros st; [discriminate|].
  cbn [wait_loop]. unfold bind, digitalRead, millis, ret.
  cbn [obj nread ntime out].
  destruct (Z.b2z (line (nread st)) =? 0).
  - intros H. inversion H. reflexivity.
  - destruct (_ <? TIMEOUT_MILLIS).
    + intros H. apply IH in H. exact H.
    + intros H. inversion H. reflexivity.
Qed.

Lemma waitForResultSHT_frame (fuel : nat) (d : Z) (st st' : Sys) (u : unit) :
  waitForResultSHT fuel d st = Some (u, st') -> obj st' = obj st.
Proof.
  rewrite waitForResultSHT_unfold. intros H.
  apply wait_loop_frame in H. exact H.
Qed.

Lemma shiftIn_total (d c numBits : Z) (st : Sys) :
  exists v st',
    shiftIn d c numBits st = Some (v, st') /\
    advanced st st' (Z.to_nat numBits) 0.
Proof.
  unfold shiftIn, bind.
  destruct (shiftIn_loop_run d c (Z.to_nat numBits) 0 st) as (st' & Hrun & Hadv).
  rewrite Hrun. eexists. exists st'. split; [reflexivity | exact Hadv].
Qed.

Lemma getData16SHT_total (d c : Z) (st : Sys) :
  exists v st', getData16SHT d c st = Some (v, st') /\ advanced st st' 16 0.
Proof.
  unfold getData16SHT. run_prims. unfold bind at 1.
  match goal with |- context [shiftIn d c 8 ?s] =>
    destruct (shiftIn_total d c 8 s) as (v1 & st1 & Hrun1 & Ho1 & Hr1 & Ht1) end.
  rewrite Hrun1. run_prims. unfold bind at 1.
  match goal with |- context [shiftIn d c 8 ?s] =>
    destruct (shiftIn_total d c 8 s) as (v2 & st2 & Hrun2 & Ho2 & Hr2 & Ht2) end.
  rewrite Hrun2. run_prims. cbn [obj nread ntime out] in *.
  eexists. exists st2. split; [reflexivity|].
  unfold advanced. change (Z.to_nat 8) with 8%nat in *.
  repeat split; [congruence | lia | lia].
Qed.

Lemma readInTemperature_run (fuel : nat) (st st1 st2 : Sys) (raw : Z) :
  waitForResultSHT fuel (_dataPin (obj st)) st = Some (tt, st1) ->
  getData16SHT (_dataPin (obj st)) (_clockPin (obj st)) st1 = Some (raw, st2) ->
  obj st2 = obj st ->
  exists st',
    readInTemperature fuel st = Some (raw, st') /\
    obj st' = set_temperatureRaw raw (obj st) /\
    nread st' = nread st2 /\ ntime st' = ntime st2.
Proof.
  intros Hwait Hget Hobj. unfold readInTemperature.
  unfold bind at 1. unfold get_obj at 1.
  unfold bind at 1. rewrite Hwait.
  unfold bind at 1. rewrite Hget.
  eexists. split; [reflexivity|]. cbn. rewrite Hobj. repeat split.
Qed.

Lemma readInHumidity_run (fuel : nat) (st st1 st2 : Sys) (raw : Z) :
  waitForResultSHT fuel (_dataPin (obj st)) st = Some (tt, st1) ->
  getData16SHT (_dataPin (obj st)) (_clockPin (obj st)) st1 = Some (raw, st2) ->
  obj st2 = obj st ->
  exists st',
    readInHumidity fuel st = Some (of_int raw, st') /\
    obj st' = obj st /\
    nread st' = nread st2 /\ ntime st' = ntime st2.
Proof.
  intros Hwait Hget Hobj. unfold readInHumidity.
  unfold bind at 1. unfold get_obj at 1.
  unfold bind at 1. rewrite Hwait.
  unfold bind at 1. rewrite Hget.
  eexists. split; [reflexivity|]. cbn. rewrite Hobj. repeat split.
Qed.

(** What a finished poll is followed by. *)
Lemma after_poll (fuel : nat) (st st1 : Sys) (u : unit) :
  waitForResultSHT fuel (_dataPin (obj st)) st = Some (u, st1) ->
  exists raw st2,
    getData16SHT (_dataPin (obj st)) (_clockPin (obj st)) st1 = Some (raw, st2) /\
    obj st2 = obj st.
Proof.
  intros Hwait.
  destruct (getData16SHT_total (_dataPin (obj st)) (_clockPin (obj st)) st1)
    as (raw & st2 & Hget & Ho & _).
  exists raw, st2. split; [exact Hget|].
  rewrite Ho. now apply waitForResultSHT_frame in Hwait.
Qed.

Lemma readInTemperature_inv (fuel : nat) (st st' : Sys) (v : Z) :
  readInTemperature fuel st = Some (v, st') ->
  obj st' = set_temperatureRaw v (obj st) /\
  exists st1 st2,
    waitForResultSHT fuel (_dataPin (obj st)) st = Some (tt, st1) /\
    getData16SHT (_dataPin (obj st)) (_clockPin (obj st)) st1 = Some (v, st2).
Proof.
  intros Hrun.
  destruct (waitForResultSHT fuel (_dataPin (obj st)) st) as [[[] st1]|] eqn:Hwait.
  - destruct (after_poll fuel st st1 tt Hwait) as (raw & st2 & Hget & Hobj).
    destruct (readInTemperature_run fuel st st1 st2 raw Hwait Hget Hobj)
      as (st'' & Hrun' & Ho & _).
    rewrite Hrun' in Hrun. inversion Hrun; subst.
    split; [exact Ho|]. exists st1, st2. split; [reflexivity | exact Hget].
  - unfold readInTemperature in Hrun.
    unfold bind at 1 in Hrun. unfold get_obj at 1 in Hrun.
    unfold bind at 1 in Hrun. rewrite Hwait in Hrun. discriminate.
Qed.

Lemma readInHumidity_inv (fuel : nat) (st st' : Sys) (h : float) :
  readInHumidity fuel st = Some (h, st') ->
  obj st' = obj st /\
  exists st1 st2 raw,
    waitForResultSHT fuel (_dataPin (obj st)) st = Some (tt, st1) /\
    getData16SHT (_dataPin (obj st)) (_clockPin (obj st)) st1 = Some (raw, st2) /\
    h = of_int raw.
Proof.
  intros Hrun.
  destruct (waitForResultSHT fuel (_dataPin (obj st)) st) as [[[] st1]|] eqn:Hwait.
  - destruct (after_poll fuel st st1 tt Hwait) as (raw & st2 & Hget & Hobj).
    destruct (readInHumidity_run fuel st st1 st2 raw Hwait Hget Hobj)
      as (st'' & Hrun' & Ho & _).
    rewrite Hrun' in Hrun. inversion Hrun; subst.
    split; [exact Ho|]. exists st1, st2, raw. repeat split; assumption.
  - unfold readInHumidity in Hrun.
    unfold bind at 1 in Hrun. unfold get_obj at 1 in Hrun.
    unfold bind at 1 in Hrun. rewrite Hwait in Hrun. discriminate.
Qed.

Lemma waitForResultSHT_total (d : Z) (st : Sys) :
  clock_live (ntime st) ->
  exists k st',
    forall fuel, (k < fuel)%nat -> waitForResultSHT fuel d st = Some (tt, st').
Proof.
  intros [k Hk].
  destruct (wait_loop_terminates d (to_ulong (clk (ntime st))) k (poll_entry d st))
    as (st' & _ & _ & Hrun & _).
  { now rewrite poll_entry_shown. }
  exists k, st'. intros fuel Hf. rewrite waitForResultSHT_unfold. now apply Hrun.
Qed.

(** With a live clock every transaction completes. *)
Lemma transaction_total (cmd : Z) (st : Sys) :
  clock_live (ntime st) ->
  exists k raw st2,
    forall fuel, (k < fuel)%nat -> transaction cmd fuel st raw st2.
Proof.
  intros Hlive. unfold transaction.
  set (d := _dataPin (obj st)). set (c := _clockPin (obj st)).
  destruct (waitForResultSHT_total d (after_sendCommand cmd d c st) Hlive)
    as (k & st1 & Hwait).
  destruct (getData16SHT_total d c st1) as (raw & st2 & Hget & _).
  exists k, raw, st2. intros fuel Hf. exists st1. split; [now apply Hwait | exact Hget].
Qed.

Lemma transaction_frame (cmd : Z) (fuel : nat) (st : Sys) (raw : Z) (st2 : Sys) :
  transaction cmd fuel st raw st2 -> obj st2 = obj st.
Proof.
  intros (st1 & Hwait & Hget).
  destruct (getData16SHT_total (_dataPin (obj st)) (_clockPin (obj st)) st1)
    as (raw' & st2' & Hget' & Ho & _).
  rewrite Hget in Hget'. inversion Hget'; subst.
  rewrite Ho. apply waitForResultSHT_frame in Hwait. exact Hwait.
Qed.

Lemma readInTemperature_after_command (cmd : Z) (fuel : nat) (st : Sys)
    (raw : Z) (st2 : Sys) :
  transaction cmd fuel st raw st2 ->
  exists st',
    readInTemperature fuel
      (after_sendCommand cmd (_dataPin (obj st)) (_clockPin (obj st)) st) =
      Some (raw, st') /\
    obj st' = set_temperatureRaw raw (obj st).
Proof.
  intros Htr. pose proof (transaction_frame _ _ _ _ _ Htr) as Hobj.
  destruct Htr as (st1 & Hwait & Hget).
  destruct (readInTemperature_run fuel
              (after_sendCommand cmd (_dataPin (obj st)) (_clockPin (obj st)) st)
              st1 st2 raw Hwait Hget Hobj) as (st' & Hrun & Ho & _).
  exists st'. split; assumption.
Qed.

Lemma readTemperatureC_run (fuel : nat) (st : Sys) (raw : Z) (st2 : Sys) :
  transaction 3 fuel st raw st2 ->
  exists st',
    readTemperatureC fuel st =
      Some ((of_int raw * _D2C (obj st) + _D1C (obj st))%f32, st') /\
    obj st' = set_temperatureRaw raw (obj st).
Proof.
  intros Htr.
  destruct (readInTemperature_after_command 3 fuel st raw st2 Htr)
    as (st' & Hrun & Ho).
  exists st'. split; [|exact Ho].
  unfold readTemperatureC, requestTemperature.
  unfold bind at 1. unfold bind at 1. unfold get_obj at 1.
  rewrite sendCommandSHT_run. unfold bind at 1. rewrite Hrun.
  unfold parseTemperatureC, bind, get_obj, ret. rewrite Ho. reflexivity.
Qed.

Lemma readTemperatureF_run (fuel : nat) (st : Sys) (raw : Z) (st2 : Sys) :
  transaction 3 fuel st raw st2 ->
  exists st',
    readTemperatureF fuel st =
      Some ((of_int raw * _D2F (obj st) + _D1F (obj st))%f32, st') /\
    obj st' = set_temperatureRaw raw (obj st).
Proof.
  intros Htr.
  destruct (readInTemperature_after_command 3 fuel st raw st2 Htr)
    as (st' & Hrun & Ho).
  exists st'. split; [|exact Ho].
  unfold readTemperatureF, requestTemperature.
  unfold bind at 1. unfold bind at 1. unfold get_obj at 1.
  rewrite sendCommandSHT_run. unfold bind at 1. rewrite Hrun.
  unfold parseTemperatureF, bind, get_obj, ret. rewrite Ho. reflexivity.
Qed.

(** [parseHumidity] depends on the object only. *)
Lemma parseHumidity_obj (raw : Z) (st st' : Sys) :
  obj st' = obj st ->
  exists h, parseHumidity raw st = Some (h, st) /\
            parseHumidity raw st' = Some (h, st').
Proof.
  intros Ho.
  exists (((of_int (_temperatureRaw (obj st)) * _D2C (obj st) + _D1C (obj st)
            - dec 250 10) * (T1 + T2 * of_int raw)
           + (C1 + C2 * of_int raw + C3 * of_int raw * of_int raw))%f32).
  split; [reflexivity|].
  unfold parseHumidity, parseTemperatureC, bind, get_obj, ret.
  rewrite Ho. reflexivity.
Qed.

Lemma readHumidity_run (fuel : nat) (st : Sys) (raw : Z) (st2 : Sys) :
  transaction 5 fuel st raw st2 ->
  exists h st',
    parseHumidity (to_Z (of_int raw)) st = Some (h, st) /\
    readHumidity fuel st = Some (h, st') /\
    obj st' = obj st.
Proof.
  intros Htr. pose proof (transaction_frame _ _ _ _ _ Htr) as Hobj.
  destruct Htr as (st1 & Hwait & Hget).
  destruct (readInHumidity_run fuel
              (after_sendCommand 5 (_dataPin (obj st)) (_clockPin (obj st)) st)
              st1 st2 raw Hwait Hget Hobj) as (st' & Hrun & Ho & _).
  cbn [obj after_sendCommand] in Ho.
  destruct (parseHumidity_obj (to_Z (of_int raw)) st st' Ho) as (h & Hh & Hh').
  exists h, st'. split; [exact Hh|]. split; [|exact Ho].
  unfold readHumidity, requestHumidity.
  unfold bind at 1. unfold bind at 1. unfold get_obj at 1.
  rewrite sendCommandSHT_run. unfold bind at 1. rewrite Hrun. exact Hh'.
Qed.

Lemma readHumidity_inv (fuel : nat) (st st' : Sys) (h : float) :
  readHumidity fuel st = Some (h, st') -> obj st' = obj st.
Proof.
  unfold readHumidity, requestHumidity.
  unfold bind at 1. unfold bind at 1. unfold get_obj at 1.
  rewrite sendCommandSHT_run. unfold bind at 1.
  destruct (readInHumidity fuel _) as [[x st1]|] eqn:Hin; [|discriminate].
  apply readInHumidity_inv in Hin. destruct Hin as (Ho & _).
  cbn [obj after_sendCommand] in Ho.
  destruct (parseHumidity_obj (to_Z x) st1 st1 eq_refl) as (h0 & Hh & _).
  rewrite Hh. intros H. injection H as _ Hst. rewrite <- Hst. exact Ho.
Qed.

End DriverFacts.

(* ================================================================== *)
(** ** Driver theorems *)
(* ================================================================== *)

Lemma shiftIn_getData16SHT_witness :
  exists v st',
    getData16SHT (B := avr_board first_high ticking) 2 3 (power_on S754_nan)
      = Some (v, st') /\
    to_uint16 v =
      msb_value (samples (B := avr_board first_high ticking) 0 8) * 256
      + msb_value (samples (B := avr_board first_high ticking) 8 8).
Proof.
  destruct (proj2 (shiftIn_getData16SHT (B := avr_board first_high ticking)
                     2 3 (power_on S754_nan) ltac:(discriminate)))
    as (v & st' & Hrun & _ & _ & H16 & _).
  exists v, st'. split; [exact Hrun | exact H16].
Defined.

(** C6 as stated fails for nine pulses: with the first sampled bit high
    and eight low ones the accumulator is 256, and [shiftIn] returns 0. *)
Lemma shiftIn_nine_bits_truncated :
  msb_value (samples (B := avr_board first_high ticking) 0 (Z.to_nat 9)) = 256 /\
  eval (shiftIn (B := avr_board first_high ticking) 2 3 9) (power_on S754_nan)
    = Some 0.
Proof. split; reflexivity. Qed.

Lemma waitForResultSHT_returns_witness :
  exists k,
    1000 <= elapsed (B := avr_board stuck_high ticking) 0 k /\
    exists st',
      (forall fuel, (k < fuel)%nat ->
         waitForResultSHT (B := avr_board stuck_high ticking) fuel 2
           (power_on S754_nan) = Some (tt, st')) /\
      advanced (power_on S754_nan) st' (S k) (S (S k)).
Proof.
  destruct (waitForResultSHT_returns (B := avr_board stuck_high ticking) 2
              (power_on S754_nan)) as (k & Hk & _ & _ & Hhigh).
  - exists 3%nat. vm_compute. discriminate.
  - exists k. split; [exact Hk|]. apply Hhigh. intros j. reflexivity.
Defined.

(** C8.  Neither fault is reported.  [sendCommandSHT] returns the same
    result whatever the two acknowledgment reads yield (it does not depend
    on the data line at all).  Once the ready poll has returned, by a
    ready line or by the timeout, [readTemperatureC], [readTemperatureF]
    and [readHumidity] go on to shift in a word and return its conversion,
    a plain [float]; with a live clock they do so for every behaviour of
    the data line. *)
Theorem faults_not_surfaced :
  (forall (B1 B2 : Board) (cmd d c : Z) (st : Sys),
     sendCommandSHT (B := B1) cmd d c st = sendCommandSHT (B := B2) cmd d c st) /\
  (forall (B : Board) (cmd d c : Z) (st : Sys),
     sendCommandSHT cmd d c st = Some (tt, after_sendCommand cmd d c st)) /\
  (forall (B : Board) (st : Sys),
     clock_live (ntime st) ->
     exists k, forall fuel, (k < fuel)%nat ->
       (exists raw st2 st',
          transaction 3 fuel st raw st2 /\
          readTemperatureC fuel st =
            Some ((of_int raw * _D2C (obj st) + _D1C (obj st))%f32, st')) /\
       (exists raw st2 st',
          transaction 3 fuel st raw st2 /\
          readTemperatureF fuel st =
            Some ((of_int raw * _D2F (obj st) + _D1F (obj st))%f32, st')) /\
       (exists raw st2 h st',
          transaction 5 fuel st raw st2 /\
          parseHumidity (to_Z (of_int raw)) st = Some (h, st) /\
          readHumidity fuel st = Some (h, st'))).
Proof.
  split; [|split].
  - intros B1 B2 cmd d c st.
    rewrite (sendCommandSHT_run (B := B1)), (sendCommandSHT_run (B := B2)).
    reflexivity.
  - intros B cmd d c st. apply sendCommandSHT_run.
  - intros B st Hlive.
    destruct (transaction_total 3 st Hlive) as (kT & rawT & stT & HT).
    destruct (transaction_total 5 st Hlive) as (kH & rawH & stH & HH).
    exists (kT + kH)%nat. intros fuel Hf.
    specialize (HT fuel ltac:(lia)). specialize (HH fuel ltac:(lia)).
    split; [|split].
    + destruct (readTemperatureC_run fuel st rawT stT HT) as (st' & Hrun & _).
      exists rawT, stT, st'. split; assumption.
    + destruct (readTemperatureF_run fuel st rawT stT HT) as (st' & Hrun & _).
      exists rawT, stT, st'. split; assumption.
    + destruct (readHumidity_run fuel st rawH stH HH) as (h & st' & Hh & Hrun & _).
      exists rawH, stH, h, st'. repeat split; assumption.
Qed.

Lemma faults_not_surfaced_witness :
  exists k, forall fuel, (k < fuel)%nat ->
    exists raw st2 st',
      transaction (B := avr_board stuck_high ticking) 3 fuel
        (power_on (of_int (-40))) raw st2 /\
      readTemperatureC (B := avr_board stuck_high ticking) fuel
        (power_on (of_int (-40))) =
        Some ((of_int raw * of_int (-40) + of_int (-40))%f32, st').
Proof.
  destruct (proj2 (proj2 faults_not_surfaced) (avr_board stuck_high ticking)
              (power_on (of_int (-40)))) as (k & Hk).
  - exists 3%nat. vm_compute. discriminate.
  - exists k. intros fuel Hf. exact (proj1 (Hk fuel Hf)).
Defined.

Lemma readIn_total {B : Board} (st : Sys) :
  clock_live (ntime st) ->
  exists k, forall fuel, (k < fuel)%nat ->
    (exists v st',
       readInTemperature fuel st = Some (v, st') /\
       obj st' = set_temperatureRaw v (obj st)) /\
    (exists h st', readInHumidity fuel st = Some (h, st') /\ obj st' = obj st).
Proof.
  intros Hlive.
  destruct (waitForResultSHT_total (_dataPin (obj st)) st Hlive)
    as (k & st1 & Hwait).
  exists k. intros fuel Hf. specialize (Hwait fuel Hf).
  destruct (after_poll fuel st st1 tt Hwait) as (raw & st2 & Hget & Hobj).
  split.
  - destruct (readInTemperature_run fuel st st1 st2 raw Hwait Hget Hobj)
      as (st' & Hrun & Ho & _).
    exists raw, st'. split; assumption.
  - destruct (readInHumidity_run fuel st st1 st2 raw Hwait Hget Hobj)
      as (st' & Hrun & Ho & _).
    exists (of_int raw), st'. split; assumption.
Qed.

(** C9.  Only a temperature read updates the cached raw temperature.
    [readInTemperature] stores the word [getData16SHT] returns into
    [_temperatureRaw], changes nothing else in the object and returns that
    same value.  [readInHumidity], [parseHumidity] and [readHumidity] leave
    the object as it was, [parseHumidity] reading [_temperatureRaw] for the
    compensation term: two humidity reads in a row use the same cached
    temperature.  With a live clock all of these return. *)
Theorem cached_temperature_frame (B : Board) :
  (forall fuel st v st',
     readInTemperature fuel st = Some (v, st') ->
     obj st' = set_temperatureRaw v (obj st) /\
     _temperatureRaw (obj st') = v /\
     exists st1 st2,
       waitForResultSHT fuel (_dataPin (obj st)) st = Some (tt, st1) /\
       getData16SHT (_dataPin (obj st)) (_clockPin (obj st)) st1 = Some (v, st2)) /\
  (forall fuel st h st',
     readInHumidity fuel st = Some (h, st') -> obj st' = obj st) /\
  (forall raw st,
     exists t,
       parseTemperatureC (_temperatureRaw (obj st)) st = Some (t, st) /\
       parseHumidity raw st =
         Some (((t - dec 250 10) * (T1 + T2 * of_int raw)
                + (C1 + C2 * of_int raw + C3 * of_int raw * of_int raw))%f32, st)) /\
  (forall fuel st h st',
     readHumidity fuel st = Some (h, st') -> obj st' = obj st) /\
  (forall fuel1 fuel2 st h1 st1 h2 st2,
     readHumidity fuel1 st = Some (h1, st1) ->
     readHumidity fuel2 st1 = Some (h2, st2) ->
     _temperatureRaw (obj st1) = _temperatureRaw (obj st) /\
     _temperatureRaw (obj st2) = _temperatureRaw (obj st)) /\
  (forall st,
     clock_live (ntime st) ->
     exists k, forall fuel, (k < fuel)%nat ->
       (exists v st', readInTemperature fuel st = Some (v, st')) /\
       (exists h st', readInHumidity fuel st = Some (h, st')) /\
       (exists h st', readHumidity fuel st = Some (h, st'))).
Proof.
  split; [|split; [|split; [|split; [|split]]]].
  - intros fuel st v st' Hrun.
    destruct (readInTemperature_inv fuel st st' v Hrun) as (Ho & Hex).
    split; [exact Ho|]. split; [now rewrite Ho | exact Hex].
  - intros fuel st h st' Hrun.
    now destruct (readInHumidity_inv fuel st st' h Hrun).
  - intros raw st. eexists. split; reflexivity.
  - intros fuel st h st'. apply readHumidity_inv.
  - intros fuel1 fuel2 st h1 st1 h2 st2 H1 H2.
    apply readHumidity_inv in H1. apply readHumidity_inv in H2.
    split; congruence.
  - intros st Hlive.
    destruct (readIn_total st Hlive) as (k1 & Hk1).
    destruct (transaction_total 5 st Hlive) as (k2 & raw & st2 & Hk2).
    exists (k1 + k2)%nat. intros fuel Hf.
    destruct (Hk1 fuel ltac:(lia)) as ((v & st' & HT & _) & (h & st'' & HH & _)).
    split; [now exists v, st'|]. split; [now exists h, st''|].
    destruct (readHumidity_run fuel st raw st2 (Hk2 fuel ltac:(lia)))
      as (h' & st3 & _ & Hrun & _).
    now exists h', st3.
Qed.

Lemma cached_temperature_frame_witness :
  exists k, forall fuel, (k < fuel)%nat ->
    exists v st',
      readInTemperature (B := avr_board first_high ticking) fuel
        (power_on S754_nan) = Some (v, st').
Proof.
  destruct (proj2 (proj2 (proj2 (proj2 (proj2
              (cached_temperature_frame (avr_board first_high ticking))))))
              (power_on S754_nan)) as (k & Hk).
  - exists 3%nat. vm_compute. discriminate.
  - exists k. intros fuel Hf. exact (proj1 (Hk fuel Hf)).
Defined.

(* ================================================================== *)
(** ** Concrete runs *)
(* ================================================================== *)

(** The literals are the binary32 values a compiler produces:
    0.01f is 0x3C23D70A and 40.1f is 0x42206666. *)
Example literal_0_01 : dec 1 100 = S754_finite false 0xA3D70A (-30).
Proof. reflexivity. Qed.

Example literal_40_1 : dec 401 10 = S754_finite false 0xA06666 (-18).
Proof. reflexivity. Qed.

(** At the default 5 volts the offsets are -40.1 and -40.2. *)
Example default_offsets :
  _D1C (obj default_object) = (- dec 401 10)%f32 /\
  _D1F (obj default_object) = S754_finite true 10538189 (-18) /\
  _D2C (obj default_object) = dec 1 100 /\
  _D2F (obj default_object) = dec 18 1000.
Proof. repeat split; reflexivity. Qed.

(** A whole temperature read: the sensor answers 0x1900 after two busy
    polls; the result is 23.9 degrees Celsius (75 Fahrenheit), the word is
    cached, 21 samples of the line and 3 readings of the clock are used. *)
Example read_6400_celsius :
  match readTemperatureC (B := avr_board (line_of answer_6400) ticking)
                         10 default_object with
  | Some (t, st') =>
      t = S754_finite false 12530484 (-19) /\
      _temperatureRaw (obj st') = 6400 /\
      nread st' = 21%nat /\ ntime st' = 3%nat
  | None => False
  end.
Proof. vm_compute. repeat split; reflexivity. Qed.

Example read_6400_fahrenheit :
  eval (readTemperatureF (B := avr_board (line_of answer_6400) ticking) 10)
       default_object = Some (of_int 75).
Proof. vm_compute. reflexivity. Qed.

(** With fuel for two tests only, the third poll is not reached. *)
Example read_6400_short_of_fuel :
  readTemperatureC (B := avr_board (line_of answer_6400) ticking)
                   2 default_object = None.
Proof. vm_compute. reflexivity. Qed.

(** A line that never goes low: the poll times out at the fourth test
    (1200 ms), and the all-ones word is converted like any other.  It is
    -1 on a 16-bit [int] and 65535 on a 32-bit one. *)
Example read_stuck_line_16 :
  match readTemperatureC (B := mkBoard 16 1000 stuck_high ticking)
                         10 default_object with
  | Some (t, st') =>
      _temperatureRaw (obj st') = -1 /\
      nread st' = (2 + 4 + 16)%nat /\ ntime st' = 5%nat
  | None => False
  end.
Proof. vm_compute. repeat split; reflexivity. Qed.

Example read_stuck_line_32 :
  match readTemperatureC (B := mkBoard 32 1000 stuck_high ticking)
                         10 default_object with
  | Some (t, st') => _temperatureRaw (obj st') = 65535
  | None => False
  end.
Proof. vm_compute. reflexivity. Qed.

(** The raw humidity word survives its passage through [float]. *)
Example humidity_word_roundtrip : to_Z (of_int 6400) = 6400.
Proof. reflexivity. Qed.

(** The assumption on the clock cannot be dropped: with a clock that
    stands still and a line that stays high the poll outlasts any fuel. *)
Lemma wait_loop_frozen_clock (fuel : nat) (d : Z) (st : Sys) :
  wait_loop (B := avr_board stuck_high frozen) fuel d 0 st = None.
Proof.
  revert st. induction fuel as [|fuel IH]; intros st; [reflexivity|].
  cbn [wait_loop]. unfold bind at 1. unfold digitalRead at 1.
  cbn [line avr_board stuck_high Z.b2z Z.eqb].
  unfold bind at 1. unfold millis at 1. apply IH.
Qed.

Lemma waitForResultSHT_frozen_clock (fuel : nat) (d : Z) (st : Sys) :
  waitForResultSHT (B := avr_board stuck_high frozen) fuel d st = None.
Proof. rewrite waitForResultSHT_unfold. apply wait_loop_frozen_clock. Qed.

(* ================================================================== *)
(** ** Further properties: calibration *)
(* ================================================================== *)

Lemma SFcompare_None (a b : float) :
  SFcompare a b = None -> is_nan a = true \/ is_nan b = true.
Proof.
  destruct a as [[]|[]| |[] ma ea], b as [[]|[]| |[] mb eb]; simpl;
    intros H; try discriminate H; auto.
Qed.

(** Two numbers are comparable: not above means below or equal. *)
Lemma fgt_false_fle (a b : float) :
  is_nan a = false -> is_nan b = false -> fgt a b = false -> fle a b = true.
Proof.
  intros Ha Hb. unfold fgt, fle, SFleb.
  destruct (SFcompare a b) as [[]|] eqn:E; try reflexivity; try discriminate.
  destruct (SFcompare_None a b E); congruence.
Qed.

Lemma vals_not_nan (j : nat) : is_nan (idx vals j) = false.
Proof. do 5 (destruct j as [|j]; [reflexivity|]). destruct j; reflexivity. Qed.

(** The table of thresholds decreases. *)
Lemma vals_decreasing (j i : nat) :
  (j < i < VALS_IN_TABLE)%nat -> fgt (idx vals j) (idx vals i) = true.
Proof.
  unfold VALS_IN_TABLE. intros H.
  assert (Hi : i = 1%nat \/ i = 2%nat \/ i = 3%nat \/ i = 4%nat) by lia.
  destruct Hi as [-> |[-> |[-> | ->]]];
    do 4 (destruct j as [|j]; [reflexivity || lia|]); lia.
Qed.


(** A voltage above [vals[i]] and, for [i > 1], at most [vals[i-1]] has
    [i] for the first index of the scan. *)
Lemma first_above_of_bounds (v : float) (i : nat) :
  (1 <= i < VALS_IN_TABLE)%nat -> fgt v (idx vals i) = true ->
  i = 1%nat \/ fle v (idx vals (i - 1)) = true ->
  first_above v i.
Proof.
  intros Hi Hv Hup. split; [exact Hi|]. split; [exact Hv|].
  intros j Hj. destruct Hup as [-> | Hle]; [lia|].
  destruct (Nat.eq_dec j (i - 1)) as [-> | Hne]; [now apply fle_not_fgt|].
  apply (fle_fgt_false v (idx vals (i - 1))); [exact Hle|].
  apply vals_decreasing. lia.
Qed.



(** Above some threshold of the scan means above the lowest one. *)
Lemma above_some_above_lowest (v : float) (j : nat) :
  (1 <= j < VALS_IN_TABLE)%nat -> fgt v (idx vals j) = true ->
  fgt v (idx vals 4) = true.
Proof.
  intros Hj Hv. unfold VALS_IN_TABLE in Hj.
  destruct (Nat.eq_dec j 4) as [-> | Hne]; [exact Hv|].
  apply (fgt_trans v (idx vals j)); [exact Hv|].
  apply vals_decreasing. unfold VALS_IN_TABLE. lia.
Qed.

(** X2.  [_setConversionCoeffs] leaves the offsets unassigned exactly when
    the voltage is not above the lowest threshold [vals[4]] = 2.5; a NaN
    voltage, above nothing, is such a voltage. *)
Theorem offsets_unset_iff (v : float) :
  (offsets_left_unset v <-> fgt v (idx vals 4) = false) /\
  (is_nan v = true -> offsets_left_unset v).
Proof.
  assert (Hback : fgt v (idx vals 4) = false -> offsets_left_unset v).
  { intros Hv st. exists (with_slopes st).
    split; [|split; reflexivity].
    apply setConversionCoeffs_none. intros j Hj.
    destruct (fgt v (idx vals j)) eqn:E; [|reflexivity].
    rewrite (above_some_above_lowest v j Hj E) in Hv. discriminate. }
  split; [split; [|exact Hback]|].
  - intros Hunset. destruct (fgt v (idx vals 4)) eqn:Hv; [|reflexivity].
    exfalso.
    destruct (first_above_cases v) as [[i Hi] | Hnone];
      [|rewrite Hnone in Hv by (unfold VALS_IN_TABLE; lia); discriminate].
    destruct (Hunset (power_on S754_nan)) as (st' & Hrun & HC & _).
    destruct (setConversionCoeffs_first_above v i (power_on S754_nan) Hi)
      as (st'' & Hrun' & HC' & _).
    rewrite Hrun in Hrun'. injection Hrun' as <-.
    pose proof (bracket_offset_not_nan coeffsC i v (or_introl eq_refl)
                  (proj1 Hi) (fgt_not_nan _ _ Hv)) as Hnn.
    rewrite <- HC', HC in Hnn. discriminate Hnn.
  - intros Hnan. apply Hback. destruct v; try discriminate Hnan. reflexivity.
Qed.

Lemma offsets_unset_iff_witness : offsets_left_unset S754_nan.
Proof. apply (proj2 (offsets_unset_iff S754_nan)). reflexivity. Defined.

(** X3.  The interpolation reproduces the table at its breakpoints: with a
    voltage equal to one of the four upper thresholds [vals[j]] the offsets
    are exactly [-coeffsC[j]] and [-coeffsF[j]]. *)
Theorem offsets_at_breakpoints (j : nat) (st : Sys) :
  (j < 4)%nat ->
  exists st',
    _setConversionCoeffs (idx vals j) st = Some (tt, st') /\
    _D1C (obj st') = (- idx coeffsC j)%f32 /\
    _D1F (obj st') = (- idx coeffsF j)%f32.
Proof.
  intros Hj.
  assert (Hfirst : first_above (idx vals j) (S j)).
  { apply first_above_of_bounds.
    - unfold VALS_IN_TABLE. lia.
    - apply vals_decreasing. unfold VALS_IN_TABLE. lia.
    - right. replace (S j - 1)%nat with j by lia.
      apply fgt_false_fle; try apply vals_not_nan.
      do 4 (destruct j as [|j]; [reflexivity|]). lia. }
  destruct (setConversionCoeffs_first_above (idx vals j) (S j) st Hfirst)
    as (st' & Hrun & HC & HF & _).
  exists st'. split; [exact Hrun|].
  rewrite HC, HF.
  do 4 (destruct j as [|j]; [split; vm_compute; reflexivity|]). lia.
Qed.

Lemma offsets_at_breakpoints_witness :
  exists st',
    _setConversionCoeffs (idx vals 2) (power_on S754_nan) = Some (tt, st') /\
    _D1C (obj st') = (- idx coeffsC 2)%f32 /\
    _D1F (obj st') = (- idx coeffsF 2)%f32.
Proof. apply (offsets_at_breakpoints 2 (power_on S754_nan)). lia. Defined.



(* ================================================================== *)
(** ** Further properties: words and bits *)
(* ================================================================== *)

Lemma fold_msb_acc (bits : list bool) (a : Z) :
  fold_left (fun acc b => acc * 2 + Z.b2z b) bits a =
  a * 2 ^ Z.of_nat (length bits) + msb_value bits.
Proof.
  unfold msb_value. revert a. induction bits as [|b t IH]; intros a.
  - simpl. lia.
  - cbn [fold_left length]. rewrite (IH (a * 2 + Z.b2z b)), (IH (0 * 2 + Z.b2z b)).
    rewrite Nat2Z.inj_succ, Z.pow_succ_r by lia. ring.
Qed.

Lemma msb_value_app (l1 l2 : list bool) :
  msb_value (l1 ++ l2) = msb_value l1 * 2 ^ Z.of_nat (length l2) + msb_value l2.
Proof.
  unfold msb_value at 1. rewrite fold_left_app.
  fold (msb_value l1). apply fold_msb_acc.
Qed.

Lemma bits_msb_length (n : nat) (w : Z) : length (bits_msb n w) = n.
Proof. induction n as [|n IH]; cbn [bits_msb length]; congruence. Qed.

Lemma mod_pow2_succ (w : Z) (n : nat) :
  w mod 2 ^ Z.of_nat (S n) =
  Z.b2z (Z.testbit w (Z.of_nat n)) * 2 ^ Z.of_nat n + w mod 2 ^ Z.of_nat n.
Proof.
  rewrite Nat2Z.inj_succ, Z.pow_succ_r by lia.
  assert (0 < 2 ^ Z.of_nat n) by (apply Z.pow_pos_nonneg; lia).
  rewrite (Z.mul_comm 2), Z.rem_mul_r by lia.
  rewrite Z.testbit_spec' by lia. ring.
Qed.

(** Reading back the bits of [w], most significant first, gives [w]. *)
Lemma msb_value_bits_msb (n : nat) (w : Z) :
  msb_value (bits_msb n w) = w mod 2 ^ Z.of_nat n.
Proof.
  induction n as [|n IH].
  - cbn. now rewrite Z.mod_1_r.
  - cbn [bits_msb]. change (?b :: ?t) with ([b] ++ t).
    rewrite msb_value_app, bits_msb_length, IH, mod_pow2_succ.
    unfold msb_value. cbn [fold_left]. ring.
Qed.

Lemma wrap_signed_range (w z : Z) :
  1 <= w -> - 2 ^ (w - 1) <= wrap_signed w z < 2 ^ (w - 1).
Proof.
  intros Hw. unfold wrap_signed.
  assert (Hpow : 2 ^ w = 2 * 2 ^ (w - 1)).
  { replace w with (1 + (w - 1)) at 1 by lia.
    rewrite Z.pow_add_r by lia. reflexivity. }
  assert (0 < 2 ^ w) by (apply Z.pow_pos_nonneg; lia).
  pose proof (Z.mod_pos_bound (z + 2 ^ (w - 1)) (2 ^ w) ltac:(lia)). lia.
Qed.

Section ProtocolMore.
Context {B : Board}.

Ltac run_prims :=
  cbn [bind get_obj modify_obj set_obj pinMode digitalWrite emit ret
       obj nread ntime out].

Lemma samples_app (r n m : nat) :
  samples r (n + m) = samples r n ++ samples (r + n) m.
Proof. unfold samples. now rewrite seq_app, map_app. Qed.

Lemma after_calls_0 (st : Sys) : after_calls st 0 [] = st.
Proof.
  destruct st. unfold after_calls. cbn [obj nread ntime out].
  now rewrite Nat.add_0_r, app_nil_r.
Qed.

(** The loop of [shiftIn]: [n] reads, the clock pulsed [n] times. *)
Lemma shiftIn_loop_state (d c : Z) (n : nat) (r : Z) (st : Sys) :
  shiftIn_loop d c n r st =
    Some (fold_left (fun acc b => int_of (acc * 2 + Z.b2z b))
                    (samples (nread st) n) r,
          after_calls st n (shiftIn_events d c n)).
Proof.
  revert r st. induction n as [|n IH]; intros r st.
  - cbn [shiftIn_loop shiftIn_events samples seq map fold_left]. unfold ret.
    now rewrite after_calls_0.
  - cbn [shiftIn_loop]. unfold bind at 1. unfold digitalWrite at 1.
    cbn [emit]. unfold bind at 1. unfold digitalRead at 1.
    unfold bind at 1. unfold digitalWrite at 1. cbn [emit].
    rewrite IH. cbn [obj nread ntime out]. rewrite samples_succ.
    cbn [fold_left]. f_equal. f_equal. unfold after_calls.
    cbn [obj nread ntime out shiftIn_events pulse_events].
    f_equal; [lia|]. repeat rewrite <- app_assoc. reflexivity.
Qed.

Lemma shiftIn_state (d c numBits : Z) (st : Sys) :
  exists v,
    shiftIn d c numBits st =
      Some (v, after_calls st (Z.to_nat numBits)
                           (shiftIn_events d c (Z.to_nat numBits))) /\
    0 <= v < 256.
Proof.
  unfold shiftIn, bind. rewrite shiftIn_loop_state.
  eexists. split; [reflexivity|]. unfold to_uint8.
  apply Z.mod_pos_bound. lia.
Qed.

(** X5.  [shiftIn] always returns a byte.  It pulses the clock high then
    low once per bit, sampling the line in between, and does nothing else:
    [numBits] reads and [numBits] pulses; for [numBits <= 0] it returns 0
    and touches neither line. *)
Theorem shiftIn_pulses (d c numBits : Z) (st : Sys) :
  (exists v,
     shiftIn d c numBits st =
       Some (v, after_calls st (Z.to_nat numBits)
                            (shiftIn_events d c (Z.to_nat numBits))) /\
     0 <= v < 256) /\
  length (shiftIn_events d c (Z.to_nat numBits)) = (3 * Z.to_nat numBits)%nat /\
  (numBits <= 0 -> shiftIn d c numBits st = Some (0, st)).
Proof.
  split; [apply shiftIn_state|]. split.
  - induction (Z.to_nat numBits) as [|n IH]; [reflexivity|].
    cbn [shiftIn_events]. rewrite length_app, IH. cbn [pulse_events length]. lia.
  - intros Hn. unfold shiftIn, bind. rewrite shiftIn_loop_state.
    replace (Z.to_nat numBits) with 0%nat by lia.
    cbn [samples seq map fold_left shiftIn_events]. unfold ret.
    now rewrite after_calls_0.
Qed.

(** X6.  [shiftIn] decodes what a sender shifts out most significant bit
    first: when the line shows the [n <= 8] low bits of [w] in that order,
    [shiftIn] over [n] pulses returns [w mod 2^n]; a byte comes back as
    it was sent. *)
Theorem shiftIn_decodes (d c : Z) (n : nat) (w : Z) (st : Sys) :
  8 <= int_bits -> (n <= 8)%nat ->
  samples (nread st) n = bits_msb n w ->
  eval (shiftIn d c (Z.of_nat n)) st = Some (w mod 2 ^ Z.of_nat n) /\
  (n = 8%nat -> 0 <= w < 256 -> eval (shiftIn d c 8) st = Some w).
Proof.
  intros Hw Hn Hs.
  assert (Hval : eval (shiftIn d c (Z.of_nat n)) st = Some (w mod 2 ^ Z.of_nat n)).
  { unfold eval. destruct (shiftIn_run d c (Z.of_nat n) st Hw) as (st' & Hrun & _).
    rewrite Hrun, Nat2Z.id, Hs, msb_value_bits_msb.
    rewrite Z.mod_small; [reflexivity|].
    assert (0 < 2 ^ Z.of_nat n) by (apply Z.pow_pos_nonneg; lia).
    assert (2 ^ Z.of_nat n <= 2 ^ 8) by (apply Z.pow_le_mono_r; lia).
    pose proof (Z.mod_pos_bound w (2 ^ Z.of_nat n) ltac:(lia)).
    change (2 ^ 8) with 256 in *. lia. }
  split; [exact Hval|].
  intros -> Hb. change (Z.of_nat 8) with 8 in Hval. rewrite Hval.
  change (2 ^ 8) with 256. now rewrite Z.mod_small.
Qed.

Lemma getData16SHT_state (d c : Z) (st : Sys) :
  exists v,
    getData16SHT d c st =
      Some (v, after_calls st 16 (getData16_events d c (_dataInputMode (obj st)))).
Proof.
  unfold getData16SHT. run_prims. unfold bind at 1.
  match goal with |- context [shiftIn d c 8 ?s] =>
    destruct (shiftIn_state d c 8 s) as (v1 & Hrun1 & _) end.
  rewrite Hrun1. unfold after_calls. run_prims. unfold bind at 1.
  match goal with |- context [shiftIn d c 8 ?s] =>
    destruct (shiftIn_state d c 8 s) as (v2 & Hrun2 & _) end.
  rewrite Hrun2. unfold after_calls, ret. cbn [obj nread ntime out].
  change (Z.to_nat 8) with 8%nat.
  exists (Z.lor (int_of (v1 * 256)) v2). f_equal. f_equal.
  unfold getData16_events.
  f_equal; [lia|]. repeat rewrite <- app_assoc. reflexivity.
Qed.

(** The word of [getData16SHT]: its low 16 bits are the 16 samples read
    as one number, and it lies between -32768 and 65535. *)
Lemma getData16SHT_value (d c : Z) (st : Sys) :
  16 <= int_bits ->
  exists v,
    getData16SHT d c st =
      Some (v, after_calls st 16 (getData16_events d c (_dataInputMode (obj st)))) /\
    to_uint16 v = msb_value (samples (nread st) 16) /\
    -32768 <= v <= 65535 /\
    (16 < int_bits \/ msb_value (samples (nread st) 16) < 32768 ->
     v = msb_value (samples (nread st) 16)).
Proof.
  intros Hw.
  destruct (getData16SHT_state d c st) as (v & Hstate).
  assert (Hw8 : 8 <= int_bits) by lia.
  destruct (getData16SHT_run d c st Hw8) as (st' & Hrun & _).
  assert (Hv : v = Z.lor (int_of (msb_value (samples (nread st) 8) * 256))
                         (msb_value (samples (nread st + 8) 8))).
  { pose proof (eq_trans (eq_sym Hstate) Hrun) as E.
    apply (f_equal (fun o : option (Z * Sys) =>
                      match o with Some (x, _) => x | None => 0 end)) in E.
    exact E. }
  clear Hrun.
  set (hi := msb_value (samples (nread st) 8)) in *.
  set (lo := msb_value (samples (nread st + 8) 8)) in *.
  assert (Hhi : 0 <= hi < 256) by (apply msb_value_byte; lia).
  assert (Hlo : 0 <= lo < 256) by (apply msb_value_byte; lia).
  destruct (word16_value hi lo Hw Hhi Hlo) as (Hsum & H16 & Hexact).
  assert (Hall : msb_value (samples (nread st) 16) = hi * 256 + lo).
  { change 16%nat with (8 + 8)%nat. rewrite samples_app, msb_value_app.
    rewrite samples_length. reflexivity. }
  exists v. split; [exact Hstate|]. rewrite Hv, Hall.
  split; [exact H16|]. split.
  - rewrite Hsum.
    destruct (Z.eq_dec int_bits 16) as [E | NE].
    + assert (H1 : 1 <= int_bits) by lia.
      pose proof (wrap_signed_range int_bits (hi * 256) H1) as Hr.
      unfold int_of. rewrite E in Hr |- *.
      change (2 ^ (16 - 1)) with 32768 in Hr. lia.
    + assert (Hwide : 16 < int_bits \/ hi < 128) by lia.
      rewrite <- Hsum, (Hexact Hwide). lia.
  - intros Hc. apply Hexact. lia.
Qed.

Lemma getData16SHT_range (d c : Z) (st st' : Sys) (v : Z) :
  16 <= int_bits -> getData16SHT d c st = Some (v, st') ->
  -32768 <= v <= 65535.
Proof.
  intros Hw Hrun.
  destruct (getData16SHT_value d c st Hw) as (v' & Hstate & _ & Hrange & _).
  pose proof (eq_trans (eq_sym Hstate) Hrun) as E.
  apply (f_equal (fun o : option (Z * Sys) =>
                    match o with Some (x, _) => x | None => 0 end)) in E.
  cbv beta iota in E. now rewrite <- E.
Qed.

(** A word of less than 16 bits shifted out by the sensor. *)
Lemma msb_value_word (r : nat) (w : Z) :
  0 <= w < 65536 -> samples r 16 = bits_msb 16 w ->
  msb_value (samples r 16) = w.
Proof.
  intros Hw Hs. rewrite Hs, msb_value_bits_msb.
  change (2 ^ Z.of_nat 16) with 65536. now apply Z.mod_small.
Qed.

Lemma getData16SHT_of_bits (d c : Z) (st : Sys) (w : Z) :
  16 <= int_bits -> 0 <= w < 65536 -> 16 < int_bits \/ w < 32768 ->
  samples (nread st) 16 = bits_msb 16 w ->
  getData16SHT d c st =
    Some (w, after_calls st 16 (getData16_events d c (_dataInputMode (obj st)))).
Proof.
  intros Hw Hr Hc Hs.
  destruct (getData16SHT_value d c st Hw) as (v & Hstate & _ & _ & Hexact).
  rewrite (msb_value_word _ w Hr Hs) in Hexact.
  now rewrite Hstate, (Hexact Hc).
Qed.

(** X7.  [getData16SHT] reads exactly 16 samples, the clock pulsed 17 times
    (8, the acknowledgment, 8), and returns them read as one number, most
    significant bit first: a word [w] the sensor shifts out comes back as
    the low 16 bits of the result, and as the result itself when [int] is
    wider than 16 bits or [w < 32768].  The result always lies between
    -32768 and 65535. *)
Theorem getData16SHT_decodes (d c : Z) (st : Sys) :
  16 <= int_bits ->
  exists v,
    getData16SHT d c st =
      Some (v, after_calls st 16 (getData16_events d c (_dataInputMode (obj st)))) /\
    to_uint16 v = msb_value (samples (nread st) 16) /\
    -32768 <= v <= 65535 /\
    forall w, 0 <= w < 65536 -> samples (nread st) 16 = bits_msb 16 w ->
              to_uint16 v = w /\ (16 < int_bits \/ w < 32768 -> v = w).
Proof.
  intros Hw.
  destruct (getData16SHT_value d c st Hw) as (v & Hstate & H16 & Hrange & Hexact).
  exists v. split; [exact Hstate|]. split; [exact H16|]. split; [exact Hrange|].
  intros w Hwr Hs. rewrite (msb_value_word _ w Hwr Hs) in *.
  split; [exact H16 | exact Hexact].
Qed.

(** *** More on the ready poll *)

Lemma wait_loop_ready_exit (d start : Z) (j : nat) (st : Sys) :
  (forall i, (i < j)%nat -> line (nread st + i) = true) ->
  line (nread st + j) = false ->
  (forall i, (i < j)%nat -> shown start st i < TIMEOUT_MILLIS) ->
  exists st',
    (forall fuel, (j < fuel)%nat -> wait_loop fuel d start st = Some (tt, st')) /\
    advanced st st' (S j) j.
Proof.
  revert st. induction j as [|j IH]; intros st Hhigh Hlow Hbefore.
  - exists (after_read d st). split.
    + intros [|fuel] Hf; [lia|]. apply wait_loop_step_low.
      now rewrite Nat.add_0_r in Hlow.
    + unfold advanced; cbn. repeat split; lia.
  - destruct (IH (after_millis (after_read d st))) as (st' & Hrun & Hadv).
    + intros i Hi. cbn [nread after_millis after_read].
      replace (S (nread st) + i)%nat with (nread st + S i)%nat by lia.
      apply Hhigh. lia.
    + cbn [nread after_millis after_read].
      replace (S (nread st) + j)%nat with (nread st + S j)%nat by lia.
      exact Hlow.
    + intros i Hi. rewrite shown_next. apply Hbefore. lia.
    + exists st'. split; [|now apply advanced_step with (d := d)].
      intros [|fuel] Hf; [lia|].
      rewrite wait_loop_step_again.
      * apply Hrun. lia.
      * rewrite <- (Nat.add_0_r (nread st)). apply Hhigh. lia.
      * apply Hbefore. lia.
Qed.

(** X8.  When the sensor pulls the line low at the [j]-th poll, the clock
    not having shown the timeout elapsed before, [waitForResultSHT] returns
    at that poll: [j+1] reads of the line, [j+1] readings of the clock
    ([start] and one per busy poll).  A line that is already low costs one
    read and no reading of the clock beyond [start]. *)
Theorem waitForResultSHT_ready (d : Z) (j : nat) (st : Sys) :
  (forall i, (i < j)%nat -> line (nread st + i) = true) ->
  line (nread st + j) = false ->
  (forall i, (i < j)%nat -> elapsed (ntime st) i < TIMEOUT_MILLIS) ->
  exists st',
    (forall fuel, (j < fuel)%nat ->
       waitForResultSHT fuel d st = Some (tt, st')) /\
    advanced st st' (S j) (S j).
Proof.
  intros Hhigh Hlow Hbefore.
  destruct (wait_loop_ready_exit d (to_ulong (clk (ntime st))) j (poll_entry d st))
    as (st' & Hrun & Hadv).
  - exact Hhigh.
  - exact Hlow.
  - intros i Hi. rewrite poll_entry_shown. now apply Hbefore.
  - exists st'. split.
    + intros fuel Hf. rewrite waitForResultSHT_unfold. now apply Hrun.
    + exact (advanced_trans _ _ _ _ _ _ _ (poll_entry_advanced d st) Hadv).
Qed.



Lemma elapsed_difference (n0 k : nat) :
  0 <= clk (S n0 + k) - clk n0 < 2 ^ 32 ->
  elapsed n0 k = clk (S n0 + k) - clk n0.
Proof.
  intros Hd. unfold elapsed, to_ulong.
  rewrite Zminus_mod_idemp_l, Zminus_mod_idemp_r. now apply Z.mod_small.
Qed.

(** X10.  The timeout survives the roll-over of the millisecond counter:
    [millis()-start] is taken modulo 2^32, so only the true time elapsed
    since entry counts, as long as it stays below 2^32 ms.  With the line
    high, the poll returns at the first reading of the clock that is at
    least [TIMEOUT_MILLIS] later than [start], wherever the counter wraps
    in between. *)
Theorem waitForResultSHT_rollover (d : Z) (k : nat) (st : Sys) :
  (forall j, (j <= k)%nat ->
     0 <= clk (S (ntime st) + j) - clk (ntime st) < 2 ^ 32) ->
  (forall j, (j <= k)%nat -> line (nread st + j) = true) ->
  (forall j, (j < k)%nat ->
     clk (S (ntime st) + j) - clk (ntime st) < TIMEOUT_MILLIS) ->
  TIMEOUT_MILLIS <= clk (S (ntime st) + k) - clk (ntime st) ->
  exists st',
    (forall fuel, (k < fuel)%nat ->
       waitForResultSHT fuel d st = Some (tt, st')) /\
    advanced st st' (S k) (S (S k)).
Proof.
  intros Hrange Hhigh Hbefore Hk.
  destruct (wait_loop_timeout_exit d (to_ulong (clk (ntime st))) k
              (poll_entry d st)) as (st' & Hrun & Hadv).
  - exact Hhigh.
  - intros j Hj. rewrite poll_entry_shown, elapsed_difference.
    + now apply Hbefore.
    + apply Hrange. lia.
  - rewrite poll_entry_shown, elapsed_difference; [exact Hk|].
    apply Hrange. lia.
  - exists st'. split.
    + intros fuel Hf. rewrite waitForResultSHT_unfold. now apply Hrun.
    + exact (advanced_trans _ _ _ _ _ _ _ (poll_entry_advanced d st) Hadv).
Qed.

Lemma wait_loop_observes (fuel : nat) (d start : Z) (st st' : Sys) (u : unit) :
  wait_loop fuel d start st = Some (u, st') ->
  exists l, out st' = out st ++ l /\ Forall (observes d) l.
Proof.
  revert st. induction fuel as [|fuel IH]; intros st; [discriminate|].
  cbn [wait_loop]. unfold bind, digitalRead, millis, ret.
  cbn [obj nread ntime out].
  destruct (Z.b2z (line (nread st)) =? 0).
  - intros H. injection H as _ <-. cbn [out].
    exists [EvDigitalRead d]. split; [reflexivity|].
    constructor; [now left | constructor].
  - destruct (_ <? TIMEOUT_MILLIS).
    + intros H. apply IH in H. destruct H as (l & Hout & Hall).
      cbn [out] in Hout. exists (EvDigitalRead d :: EvMillis :: l). split.
      * rewrite Hout. now repeat rewrite <- app_assoc.
      * constructor; [now left|]. constructor; [now right | exact Hall].
    + intros H. injection H as _ <-. cbn [out].
      exists [EvDigitalRead d; EvMillis]. split.
      * now rewrite <- app_assoc.
      * constructor; [now left|]. constructor; [now right | constructor].
Qed.

(** X11.  The ready poll only observes.  If it returns, the object is as
    it was, and the calls it made are: the data pin set to the configured
    input mode, the reading of [start], then nothing but reads of the data
    pin and readings of the clock.  No pin is written, the clock line is
    not touched. *)
Theorem waitForResultSHT_observes (fuel : nat) (d : Z) (st st' : Sys) :
  waitForResultSHT fuel d st = Some (tt, st') ->
  obj st' = obj st /\
  exists l,
    out st' = out st ++ [EvPinMode d (_dataInputMode (obj st)); EvMillis] ++ l /\
    Forall (observes d) l.
Proof.
  intros Hrun. split; [now apply waitForResultSHT_frame in Hrun|].
  rewrite waitForResultSHT_unfold in Hrun.
  apply wait_loop_observes in Hrun. destruct Hrun as (l & Hout & Hall).
  exists l. split; [|exact Hall].
  rewrite Hout. unfold poll_entry, after_millis. cbn [out].
  now repeat rewrite <- app_assoc.
Qed.

End ProtocolMore.

(* ================================================================== *)
(** ** Further properties: the reads *)
(* ================================================================== *)

(** *** Integers survive the passage through [float] *)

Lemma iter_xO_value (p d : positive) :
  Z.pos (Pos.iter xO p d) = Z.pos p * 2 ^ Z.pos d.
Proof.
  induction d as [|d IH] using Pos.peano_ind.
  - cbn [Pos.iter]. rewrite Pos2Z.inj_xO. change (2 ^ 1) with 2. lia.
  - rewrite Pos.iter_succ, Pos2Z.inj_xO, IH, Pos2Z.inj_succ, Z.pow_succ_r by lia.
    ring.
Qed.

Lemma iter_xO_digits (p d : positive) :
  Z.pos (digits2_pos (Pos.iter xO p d)) = Z.pos (digits2_pos p) + Z.pos d.
Proof.
  induction d as [|d IH] using Pos.peano_ind.
  - cbn [Pos.iter digits2_pos]. lia.
  - rewrite Pos.iter_succ. cbn [digits2_pos]. rewrite Pos2Z.inj_succ, IH. lia.
Qed.

Lemma digits2_pos_le (p : positive) (n : Z) :
  0 <= n -> Z.pos p < 2 ^ n -> Z.pos (digits2_pos p) <= n.
Proof.
  revert n. induction p as [p IH | p IH |]; intros n Hn Hp; cbn [digits2_pos].
  - assert (n <> 0) by (intros ->; simpl in Hp; lia).
    replace n with (Z.succ (n - 1)) in Hp by lia.
    rewrite Z.pow_succ_r in Hp by lia.
    specialize (IH (n - 1) ltac:(lia) ltac:(lia)). lia.
  - assert (n <> 0) by (intros ->; simpl in Hp; lia).
    replace n with (Z.succ (n - 1)) in Hp by lia.
    rewrite Z.pow_succ_r in Hp by lia.
    specialize (IH (n - 1) ltac:(lia) ltac:(lia)). lia.
  - assert (n <> 0) by (intros ->; simpl in Hp; lia). lia.
Qed.

(** A mantissa of exactly 24 digits with an exponent in range is kept as
    it is. *)
Lemma binary_round_aux_exact (s : bool) (m : positive) (e : Z) :
  Z.pos (digits2_pos m) = 24 -> -149 <= e <= 0 ->
  binary_round_aux prec32 emax32 s (Z.pos m) e loc_Exact = S754_finite s m e.
Proof.
  intros Hd He. unfold binary_round_aux, shr_fexp.
  cbn [Zdigits2 shr_record_of_loc]. rewrite Hd.
  assert (Hf : fexp prec32 emax32 (24 + e) - e = 0).
  { unfold fexp, emin, prec32, emax32. lia. }
  rewrite Hf. cbn [shr shr_m loc_of_shr_record round_nearest_even].
  cbn [Zdigits2 shr_record_of_loc]. rewrite Hd, Hf.
  cbn [shr shr_m].
  replace (e <=? emax32 - prec32) with true; [reflexivity|].
  symmetry. apply Z.leb_le. unfold emax32, prec32. lia.
Qed.

Lemma binary_round_small (s : bool) (p : positive) :
  Z.pos p < 2 ^ 24 ->
  to_Z (binary_round prec32 emax32 s p 0) = if s then - Z.pos p else Z.pos p.
Proof.
  intros Hp. unfold binary_round.
  pose proof (digits2_pos_le p 24 ltac:(lia) Hp) as Hd.
  assert (Hf : fexp prec32 emax32 (Z.pos (digits2_pos p) + 0)
               = Z.pos (digits2_pos p) - 24).
  { unfold fexp, emin, prec32, emax32. lia. }
  rewrite Hf. unfold shl_align.
  destruct (Z.pos (digits2_pos p) - 24 - 0) as [|q|q] eqn:Hq; try lia.
  - rewrite binary_round_aux_exact by lia. cbn [to_Z]. cbn. destruct s; lia.
  - rewrite binary_round_aux_exact.
    + cbn [to_Z].
      assert (He : Z.pos (digits2_pos p) - 24 = Z.neg q) by lia.
      rewrite He. rewrite iter_xO_value.
      rewrite Z.div_mul by (apply Z.pow_nonzero; lia). reflexivity.
    + rewrite iter_xO_digits. lia.
    + lia.
Qed.

Lemma to_Z_of_int (z : Z) : - 2 ^ 24 < z < 2 ^ 24 -> to_Z (of_int z) = z.
Proof.
  intros Hz. destruct z as [|p|p]; [reflexivity| |];
    unfold of_int; cbn [binary_normalize]; rewrite binary_round_small; lia.
Qed.

Section ReadsMore.
Context {B : Board}.

Lemma some_pair_inv {A} (a a' : A) (s s' : Sys) :
  Some (a, s) = Some (a', s') -> a = a' /\ s = s'.
Proof. intros H. injection H. auto. Qed.

Lemma parseHumidity_explicit (raw : Z) (st : Sys) :
  parseHumidity raw st =
    Some (((of_int (_temperatureRaw (obj st)) * _D2C (obj st) + _D1C (obj st)
            - dec 250 10) * (T1 + T2 * of_int raw)
           + (C1 + C2 * of_int raw + C3 * of_int raw * of_int raw))%f32, st).
Proof. reflexivity. Qed.

Lemma readTemperatureC_inv (fuel : nat) (st st' : Sys) (t : float) :
  readTemperatureC fuel st = Some (t, st') ->
  exists raw st2,
    transaction 3 fuel st raw st2 /\
    obj st' = set_temperatureRaw raw (obj st) /\
    t = (of_int raw * _D2C (obj st) + _D1C (obj st))%f32.
Proof.
  unfold readTemperatureC, requestTemperature.
  unfold bind at 1. unfold bind at 1. unfold get_obj at 1.
  rewrite sendCommandSHT_run. unfold bind at 1.
  destruct (readInTemperature fuel _) as [[raw st1]|] eqn:Hin; [|discriminate].
  apply readInTemperature_inv in Hin.
  destruct Hin as (Ho & st1' & st2 & Hwait & Hget).
  cbn [obj after_sendCommand] in Ho, Hwait, Hget.
  unfold parseTemperatureC, bind, get_obj, ret. intros H.
  apply some_pair_inv in H. destruct H as [Ht <-].
  exists raw, st2. split; [exists st1'; split; assumption|].
  split; [exact Ho|]. rewrite <- Ht, Ho. reflexivity.
Qed.

Lemma readTemperatureF_inv (fuel : nat) (st st' : Sys) (t : float) :
  readTemperatureF fuel st = Some (t, st') ->
  exists raw st2,
    transaction 3 fuel st raw st2 /\
    obj st' = set_temperatureRaw raw (obj st) /\
    t = (of_int raw * _D2F (obj st) + _D1F (obj st))%f32.
Proof.
  unfold readTemperatureF, requestTemperature.
  unfold bind at 1. unfold bind at 1. unfold get_obj at 1.
  rewrite sendCommandSHT_run. unfold bind at 1.
  destruct (readInTemperature fuel _) as [[raw st1]|] eqn:Hin; [|discriminate].
  apply readInTemperature_inv in Hin.
  destruct Hin as (Ho & st1' & st2 & Hwait & Hget).
  cbn [obj after_sendCommand] in Ho, Hwait, Hget.
  unfold parseTemperatureF, bind, get_obj, ret. intros H.
  apply some_pair_inv in H. destruct H as [Ht <-].
  exists raw, st2. split; [exists st1'; split; assumption|].
  split; [exact Ho|]. rewrite <- Ht, Ho. reflexivity.
Qed.

Lemma readHumidity_inv_word (fuel : nat) (st st' : Sys) (h : float) :
  readHumidity fuel st = Some (h, st') ->
  exists raw st2,
    transaction 5 fuel st raw st2 /\
    obj st' = obj st /\
    parseHumidity (to_Z (of_int raw)) st = Some (h, st).
Proof.
  unfold readHumidity, requestHumidity.
  unfold bind at 1. unfold bind at 1. unfold get_obj at 1.
  rewrite sendCommandSHT_run. unfold bind at 1.
  destruct (readInHumidity fuel _) as [[x st1]|] eqn:Hin; [|discriminate].
  apply readInHumidity_inv in Hin.
  destruct Hin as (Ho & st1' & st2 & raw & Hwait & Hget & ->).
  cbn [obj after_sendCommand] in Ho, Hwait, Hget.
  destruct (parseHumidity_obj (to_Z (of_int raw)) st st1 Ho) as (h0 & Hh & Hh1).
  rewrite Hh1. intros H. apply some_pair_inv in H. destruct H as [<- <-].
  exists raw, st2. split; [exists st1'; split; assumption|].
  split; [exact Ho | exact Hh].
Qed.

(** X12.  The raw humidity word loses nothing on its way through the
    [float] that [readInHumidity] returns and back to the [int] that
    [parseHumidity] takes: [readHumidity] returns the conversion of the
    very word [getData16SHT] shifted in. *)
Theorem readHumidity_exact_word (fuel : nat) (st : Sys) :
  16 <= int_bits ->
  (forall raw st2,
     transaction 5 fuel st raw st2 ->
     to_Z (of_int raw) = raw /\
     exists h st',
       parseHumidity raw st = Some (h, st) /\
       readHumidity fuel st = Some (h, st')) /\
  (forall h st',
     readHumidity fuel st = Some (h, st') ->
     exists raw st2,
       transaction 5 fuel st raw st2 /\ parseHumidity raw st = Some (h, st)).
Proof.
  intros Hw.
  assert (Hexact : forall raw st2,
             transaction 5 fuel st raw st2 -> to_Z (of_int raw) = raw).
  { intros raw st2 (st1 & _ & Hget).
    pose proof (getData16SHT_range _ _ _ _ _ Hw Hget) as Hr.
    apply to_Z_of_int. change (2 ^ 24) with 16777216. lia. }
  split.
  - intros raw st2 Htr. split; [now apply (Hexact raw st2)|].
    destruct (readHumidity_run fuel st raw st2 Htr) as (h & st' & Hh & Hrun & _).
    rewrite (Hexact raw st2 Htr) in Hh. exists h, st'. split; assumption.
  - intros h st' Hrun.
    destruct (readHumidity_inv_word fuel st st' h Hrun)
      as (raw & st2 & Htr & _ & Hh).
    rewrite (Hexact raw st2 Htr) in Hh. exists raw, st2. split; assumption.
Qed.

(** X13.  A humidity read that follows a temperature read compensates with
    the temperature just read: the correction term is built from the very
    Celsius value [readTemperatureC] returned, and the humidity read
    leaves the cached word in place. *)
Theorem humidity_after_temperature (fuel1 fuel2 : nat) (st st1 st2 : Sys)
    (t h : float) :
  readTemperatureC fuel1 st = Some (t, st1) ->
  readHumidity fuel2 st1 = Some (h, st2) ->
  (exists rawH,
     h = ((t - dec 250 10) * (T1 + T2 * of_int rawH)
          + (C1 + C2 * of_int rawH + C3 * of_int rawH * of_int rawH))%f32) /\
  _temperatureRaw (obj st2) = _temperatureRaw (obj st1).
Proof.
  intros HT HH.
  destruct (readTemperatureC_inv fuel1 st st1 t HT) as (raw & _ & _ & Ho & Ht).
  destruct (readHumidity_inv_word fuel2 st1 st2 h HH)
    as (rawH & _ & _ & Ho2 & Hh).
  split; [|rewrite Ho2; reflexivity].
  exists (to_Z (of_int rawH)).
  rewrite parseHumidity_explicit in Hh.
  apply some_pair_inv in Hh. destruct Hh as [<- _].
  rewrite Ht, Ho. reflexivity.
Qed.

Lemma set_temperatureRaw_calibration (raw : Z) (s : SHT1x) :
  same_calibration s (set_temperatureRaw raw s).
Proof. unfold same_calibration. repeat split. Qed.

(** X14.  No read changes the calibration or the wiring of the object:
    after [readInTemperature], [readTemperatureC], [readTemperatureF],
    [readInHumidity] or [readHumidity] the four coefficients, the two pins
    and the input mode are what the constructor stored. *)
Theorem reads_keep_calibration (fuel : nat) (st st' : Sys) :
  (forall v, readInTemperature fuel st = Some (v, st') ->
             same_calibration (obj st) (obj st')) /\
  (forall t, readTemperatureC fuel st = Some (t, st') ->
             same_calibration (obj st) (obj st')) /\
  (forall t, readTemperatureF fuel st = Some (t, st') ->
             same_calibration (obj st) (obj st')) /\
  (forall h, readInHumidity fuel st = Some (h, st') ->
             same_calibration (obj st) (obj st')) /\
  (forall h, readHumidity fuel st = Some (h, st') ->
             same_calibration (obj st) (obj st')).
Proof.
  assert (Hsame : forall s, same_calibration s s)
    by (intros s; unfold same_calibration; repeat split).
  split; [|split; [|split; [|split]]].
  - intros v H. apply readInTemperature_inv in H. destruct H as (Ho & _).
    rewrite Ho. apply set_temperatureRaw_calibration.
  - intros t H. apply readTemperatureC_inv in H.
    destruct H as (raw & _ & _ & Ho & _).
    rewrite Ho. apply set_temperatureRaw_calibration.
  - intros t H. apply readTemperatureF_inv in H.
    destruct H as (raw & _ & _ & Ho & _).
    rewrite Ho. apply set_temperatureRaw_calibration.
  - intros h H. apply readInHumidity_inv in H. destruct H as (Ho & _).
    rewrite Ho. apply Hsame.
  - intros h H. apply readHumidity_inv in H. rewrite H. apply Hsame.
Qed.

(** X15.  Temperature reads are repeatable: two reads in a row that shift
    in the same word return the same value, in Celsius and in
    Fahrenheit. *)
Theorem temperature_read_repeatable (fuel1 fuel2 : nat) (st st1 st2 : Sys)
    (t1 t2 : float) :
  _temperatureRaw (obj st2) = _temperatureRaw (obj st1) ->
  (readTemperatureC fuel1 st = Some (t1, st1) ->
   readTemperatureC fuel2 st1 = Some (t2, st2) -> t2 = t1) /\
  (readTemperatureF fuel1 st = Some (t1, st1) ->
   readTemperatureF fuel2 st1 = Some (t2, st2) -> t2 = t1).
Proof.
  intros Hsame. split; intros H1 H2.
  - apply readTemperatureC_inv in H1, H2.
    destruct H1 as (r1 & _ & _ & Ho1 & ->). destruct H2 as (r2 & _ & _ & Ho2 & ->).
    rewrite Ho2, Ho1 in Hsame. cbn in Hsame. subst r2.
    rewrite Ho1. reflexivity.
  - apply readTemperatureF_inv in H1, H2.
    destruct H1 as (r1 & _ & _ & Ho1 & ->). destruct H2 as (r2 & _ & _ & Ho2 & ->).
    rewrite Ho2, Ho1 in Hsame. cbn in Hsame. subst r2.
    rewrite Ho1. reflexivity.
Qed.

(** *** The calls of a read *)

Lemma poll_log (fuel : nat) (d : Z) (st st1 : Sys) :
  waitForResultSHT fuel d st = Some (tt, st1) ->
  obj st1 = obj st /\
  exists l,
    Forall (observes d) l /\
    out st1 = out st ++ [EvPinMode d (_dataInputMode (obj st)); EvMillis] ++ l.
Proof.
  intros Hrun. split; [now apply waitForResultSHT_frame in Hrun|].
  rewrite waitForResultSHT_unfold in Hrun.
  apply wait_loop_observes in Hrun. destruct Hrun as (l & Hout & Hall).
  exists l. split; [exact Hall|].
  rewrite Hout. unfold poll_entry, after_millis. cbn [out].
  repeat rewrite <- app_assoc. reflexivity.
Qed.

Lemma readIn_tail (fuel : nat) (st st1 st2 : Sys) (raw : Z) :
  waitForResultSHT fuel (_dataPin (obj st)) st = Some (tt, st1) ->
  getData16SHT (_dataPin (obj st)) (_clockPin (obj st)) st1 = Some (raw, st2) ->
  exists l,
    Forall (observes (_dataPin (obj st))) l /\
    out st2 ++ skipCrc_events (_dataPin (obj st)) (_clockPin (obj st)) =
    out st ++ read_tail (_dataPin (obj st)) (_clockPin (obj st))
                        (_dataInputMode (obj st)) l.
Proof.
  intros Hwait Hget.
  destruct (poll_log fuel _ st st1 Hwait) as (Ho1 & l & Hall & Hout1).
  destruct (getData16SHT_state (_dataPin (obj st)) (_clockPin (obj st)) st1)
    as (v & Hstate).
  rewrite Hstate in Hget. apply some_pair_inv in Hget. destruct Hget as [_ <-].
  exists l. split; [exact Hall|].
  unfold after_calls, read_tail. cbn [out]. rewrite Hout1, Ho1.
  repeat rewrite <- app_assoc. reflexivity.
Qed.

Lemma readInTemperature_out (fuel : nat) (st st1 st2 st' : Sys) (raw v : Z) :
  waitForResultSHT fuel (_dataPin (obj st)) st = Some (tt, st1) ->
  getData16SHT (_dataPin (obj st)) (_clockPin (obj st)) st1 = Some (raw, st2) ->
  readInTemperature fuel st = Some (v, st') ->
  out st' = out st2 ++ skipCrc_events (_dataPin (obj st)) (_clockPin (obj st)).
Proof.
  intros Hwait Hget. unfold readInTemperature.
  unfold bind at 1. unfold get_obj at 1.
  unfold bind at 1. rewrite Hwait.
  unfold bind at 1. rewrite Hget.
  unfold skipCrcSHT, skipCrc_events.
  cbn [bind get_obj modify_obj set_obj pinMode digitalWrite emit ret
       obj nread ntime out].
  intros H. apply some_pair_inv in H. destruct H as [_ <-].
  cbn [out]. repeat rewrite <- app_assoc. reflexivity.
Qed.

Lemma readInHumidity_out (fuel : nat) (st st1 st2 st' : Sys) (raw : Z)
    (h : float) :
  waitForResultSHT fuel (_dataPin (obj st)) st = Some (tt, st1) ->
  getData16SHT (_dataPin (obj st)) (_clockPin (obj st)) st1 = Some (raw, st2) ->
  readInHumidity fuel st = Some (h, st') ->
  out st' = out st2 ++ skipCrc_events (_dataPin (obj st)) (_clockPin (obj st)).
Proof.
  intros Hwait Hget. unfold readInHumidity.
  unfold bind at 1. unfold get_obj at 1.
  unfold bind at 1. rewrite Hwait.
  unfold bind at 1. rewrite Hget.
  unfold skipCrcSHT, skipCrc_events.
  cbn [bind get_obj modify_obj set_obj pinMode digitalWrite emit ret
       obj nread ntime out].
  intros H. apply some_pair_inv in H. destruct H as [_ <-].
  cbn [out]. repeat rewrite <- app_assoc. reflexivity.
Qed.

(** The calls of a temperature read up to the conversion. *)
Lemma readInTemperature_calls (fuel : nat) (st st' : Sys) (v : Z) :
  readInTemperature fuel st = Some (v, st') ->
  exists l,
    Forall (observes (_dataPin (obj st))) l /\
    out st' = out st ++ read_tail (_dataPin (obj st)) (_clockPin (obj st))
                                  (_dataInputMode (obj st)) l.
Proof.
  intros Hin. pose proof Hin as Hinv. apply readInTemperature_inv in Hinv.
  destruct Hinv as (_ & st1 & st2 & Hwait & Hget).
  rewrite (readInTemperature_out fuel st st1 st2 st' v v Hwait Hget Hin).
  apply (readIn_tail fuel st st1 st2 v Hwait Hget).
Qed.

Lemma readInHumidity_calls (fuel : nat) (st st' : Sys) (h : float) :
  readInHumidity fuel st = Some (h, st') ->
  exists l,
    Forall (observes (_dataPin (obj st))) l /\
    out st' = out st ++ read_tail (_dataPin (obj st)) (_clockPin (obj st))
                                  (_dataInputMode (obj st)) l.
Proof.
  intros Hin. pose proof Hin as Hinv. apply readInHumidity_inv in Hinv.
  destruct Hinv as (_ & st1 & st2 & raw & Hwait & Hget & _).
  rewrite (readInHumidity_out fuel st st1 st2 st' raw h Hwait Hget Hin).
  apply (readIn_tail fuel st st1 st2 raw Hwait Hget).
Qed.

(** X16.  The calls of a read that returns, in order and with nothing in
    between: the start sequence and the command (3 for a temperature, 5
    for the humidity) with its two acknowledgment reads; the poll, which
    only observes; the 16-bit shift-in with its acknowledgment; the end of
    the transaction that skips the CRC.  The end sequence is there whether
    the poll saw the line ready or timed out. *)
Theorem read_call_sequence (fuel : nat) (st st' : Sys) :
  let d := _dataPin (obj st) in
  let c := _clockPin (obj st) in
  let m := _dataInputMode (obj st) in
  (forall t, readTemperatureC fuel st = Some (t, st') ->
     exists l, Forall (observes d) l /\
       out st' = out st ++ sendCommand_events 3 d c m ++ read_tail d c m l) /\
  (forall t, readTemperatureF fuel st = Some (t, st') ->
     exists l, Forall (observes d) l /\
       out st' = out st ++ sendCommand_events 3 d c m ++ read_tail d c m l) /\
  (forall h, readHumidity fuel st = Some (h, st') ->
     exists l, Forall (observes d) l /\
       out st' = out st ++ sendCommand_events 5 d c m ++ read_tail d c m l).
Proof.
  intros d c m. split; [|split].
  - intros t. unfold readTemperatureC, requestTemperature.
    unfold bind at 1. unfold bind at 1. unfold get_obj at 1.
    rewrite sendCommandSHT_run. unfold bind at 1.
    destruct (readInTemperature fuel _) as [[raw st1]|] eqn:Hin; [|discriminate].
    apply readInTemperature_calls in Hin. destruct Hin as (l & Hall & Hout).
    unfold parseTemperatureC, bind, get_obj, ret. intros H.
    apply some_pair_inv in H. destruct H as [_ <-].
    exists l. split; [exact Hall|].
    rewrite Hout. cbn [obj out after_sendCommand].
    now rewrite <- app_assoc.
  - intros t. unfold readTemperatureF, requestTemperature.
    unfold bind at 1. unfold bind at 1. unfold get_obj at 1.
    rewrite sendCommandSHT_run. unfold bind at 1.
    destruct (readInTemperature fuel _) as [[raw st1]|] eqn:Hin; [|discriminate].
    apply readInTemperature_calls in Hin. destruct Hin as (l & Hall & Hout).
    unfold parseTemperatureF, bind, get_obj, ret. intros H.
    apply some_pair_inv in H. destruct H as [_ <-].
    exists l. split; [exact Hall|].
    rewrite Hout. cbn [obj out after_sendCommand].
    now rewrite <- app_assoc.
  - intros h. unfold readHumidity, requestHumidity.
    unfold bind at 1. unfold bind at 1. unfold get_obj at 1.
    rewrite sendCommandSHT_run. unfold bind at 1.
    destruct (readInHumidity fuel _) as [[x st1]|] eqn:Hin; [|discriminate].
    apply readInHumidity_calls in Hin. destruct Hin as (l & Hall & Hout).
    rewrite parseHumidity_explicit. intros H.
    apply some_pair_inv in H. destruct H as [_ <-].
    exists l. split; [exact Hall|].
    rewrite Hout. cbn [obj out after_sendCommand].
    now rewrite <- app_assoc.
Qed.

(** *** From the line to the physical value *)

(** The sensor acknowledges the command (two samples of any level), keeps
    the line high for [j] polls, pulls it low, then shifts out [w]. *)
Lemma transaction_of_answer (cmd : Z) (fuel j : nat) (w : Z) (st : Sys) :
  16 <= int_bits ->
  (forall i, (i < j)%nat -> line (nread st + 2 + i) = true) ->
  line (nread st + 2 + j) = false ->
  (forall i, (i < j)%nat -> elapsed (ntime st) i < TIMEOUT_MILLIS) ->
  0 <= w < 65536 -> 16 < int_bits \/ w < 32768 ->
  samples (nread st + 2 + S j) 16 = bits_msb 16 w ->
  (j < fuel)%nat ->
  exists st2, transaction cmd fuel st w st2.
Proof.
  intros Hw Hhigh Hlow Hbefore Hr Hc Hs Hf. unfold transaction.
  set (d := _dataPin (obj st)). set (c := _clockPin (obj st)).
  set (st0 := after_sendCommand cmd d c st).
  assert (Hn0 : nread (poll_entry d st0) = (nread st + 2)%nat)
    by (cbn; lia).
  destruct (wait_loop_ready_exit d (to_ulong (clk (ntime st0))) j
              (poll_entry d st0)) as (st1 & Hrun & Ho1 & Hr1 & _).
  - intros i Hi. rewrite Hn0. now apply Hhigh.
  - now rewrite Hn0.
  - intros i Hi. rewrite poll_entry_shown. now apply Hbefore.
  - rewrite Hn0 in Hr1.
    assert (Hs1 : samples (nread st1) 16 = bits_msb 16 w).
    { rewrite Hr1. exact Hs. }
    eexists. exists st1. split.
    + rewrite waitForResultSHT_unfold. now apply Hrun.
    + apply (getData16SHT_of_bits d c st1 w Hw Hr Hc Hs1).
Qed.

(** X17.  From the line to the physical value.  When the sensor keeps the
    line high for [j] polls (the timeout not yet elapsed), pulls it low and
    then shifts out the word [w] most significant bit first, a read with
    fuel for [j+1] polls returns the conversion of [w]:
    [w * _D2C + _D1C], [w * _D2F + _D1F], or the humidity formula at
    [w], and a temperature read caches [w]. *)
Theorem sensor_answer_converted (fuel j : nat) (w : Z) (st : Sys) :
  16 <= int_bits ->
  (forall i, (i < j)%nat -> line (nread st + 2 + i) = true) ->
  line (nread st + 2 + j) = false ->
  (forall i, (i < j)%nat -> elapsed (ntime st) i < TIMEOUT_MILLIS) ->
  0 <= w < 65536 -> 16 < int_bits \/ w < 32768 ->
  samples (nread st + 2 + S j) 16 = bits_msb 16 w ->
  (j < fuel)%nat ->
  (exists st',
     readTemperatureC fuel st =
       Some ((of_int w * _D2C (obj st) + _D1C (obj st))%f32, st') /\
     obj st' = set_temperatureRaw w (obj st)) /\
  (exists st',
     readTemperatureF fuel st =
       Some ((of_int w * _D2F (obj st) + _D1F (obj st))%f32, st') /\
     obj st' = set_temperatureRaw w (obj st)) /\
  (exists h st',
     parseHumidity w st = Some (h, st) /\
     readHumidity fuel st = Some (h, st') /\ obj st' = obj st).
Proof.
  intros Hw Hhigh Hlow Hbefore Hr Hc Hs Hf.
  destruct (transaction_of_answer 3 fuel j w st Hw Hhigh Hlow Hbefore Hr Hc Hs Hf)
    as (stT & HT).
  destruct (transaction_of_answer 5 fuel j w st Hw Hhigh Hlow Hbefore Hr Hc Hs Hf)
    as (stH & HH).
  split; [apply (readTemperatureC_run fuel st w stT HT)|].
  split; [apply (readTemperatureF_run fuel st w stT HT)|].
  destruct (readHumidity_run fuel st w stH HH) as (h & st' & Hh & Hrun & Ho).
  rewrite to_Z_of_int in Hh by (change (2 ^ 24) with 16777216; lia).
  exists h, st'. split; [exact Hh|]. split; [exact Hrun | exact Ho].
Qed.

End ReadsMore.

(* ================================================================== *)
(** ** Further properties: instances *)
(* ================================================================== *)

Lemma shiftIn_pulses_witness :
  shiftIn (B := avr_board stuck_high ticking) 2 3 (-1) (power_on S754_nan)
    = Some (0, power_on S754_nan).
Proof.
  apply (proj2 (proj2 (shiftIn_pulses (B := avr_board stuck_high ticking)
                         2 3 (-1) (power_on S754_nan)))).
  discriminate.
Defined.

Lemma shiftIn_decodes_witness :
  eval (shiftIn (B := avr_board (line_of (bits_msb 8 0xA5)) ticking) 2 3 8)
       (power_on S754_nan) = Some 0xA5.
Proof.
  apply (proj2 (shiftIn_decodes (B := avr_board (line_of (bits_msb 8 0xA5)) ticking)
                  2 3 8 0xA5 (power_on S754_nan)
                  ltac:(discriminate) (le_n 8) eq_refl)).
  - reflexivity.
  - split; [discriminate | reflexivity].
Defined.

Lemma getData16SHT_decodes_witness :
  exists v,
    eval (getData16SHT (B := avr_board (line_of (bits_msb 16 0x1900)) ticking) 2 3)
         (power_on S754_nan) = Some v /\
    (samples (B := avr_board (line_of (bits_msb 16 0x1900)) ticking) 0 16
       = bits_msb 16 0x1900 -> v = 0x1900).
Proof.
  destruct (getData16SHT_decodes
              (B := avr_board (line_of (bits_msb 16 0x1900)) ticking)
              2 3 (power_on S754_nan) ltac:(discriminate))
    as (v & Hrun & _ & _ & Hdec).
  exists v. split.
  - unfold eval. rewrite Hrun. reflexivity.
  - intros Hs. apply (Hdec 0x1900); [split; [discriminate | reflexivity] | exact Hs|].
    right. reflexivity.
Defined.

Lemma waitForResultSHT_ready_witness :
  exists st',
    (forall fuel, (2 < fuel)%nat ->
       waitForResultSHT (B := avr_board (line_of [true; true; false]) ticking)
         fuel 2 (power_on S754_nan) = Some (tt, st')) /\
    advanced (power_on S754_nan) st' 3 3.
Proof.
  apply (waitForResultSHT_ready
           (B := avr_board (line_of [true; true; false]) ticking)
           2 2 (power_on S754_nan)).
  - intros [|[|i]] Hi; [reflexivity | reflexivity | lia].
  - reflexivity.
  - intros [|[|i]] Hi; [reflexivity | reflexivity | lia].
Defined.


Lemma about_to_wrap_elapsed (j : nat) :
  about_to_wrap (1 + j) - about_to_wrap 0 = 300 * Z.of_nat (S j).
Proof. unfold about_to_wrap. lia. Qed.

Lemma waitForResultSHT_rollover_witness :
  exists st',
    (forall fuel, (3 < fuel)%nat ->
       waitForResultSHT (B := avr_board stuck_high about_to_wrap)
         fuel 2 (power_on S754_nan) = Some (tt, st')) /\
    advanced (power_on S754_nan) st' 4 5.
Proof.
  apply (waitForResultSHT_rollover (B := avr_board stuck_high about_to_wrap)
           2 3 (power_on S754_nan)).
  - intros j Hj. cbn [clk avr_board ntime power_on].
    rewrite about_to_wrap_elapsed. change (2 ^ 32) with 4294967296. lia.
  - intros j Hj. reflexivity.
  - intros j Hj. cbn [clk avr_board ntime power_on TIMEOUT_MILLIS].
    rewrite about_to_wrap_elapsed. lia.
  - cbn [clk avr_board ntime power_on TIMEOUT_MILLIS].
    rewrite about_to_wrap_elapsed. lia.
Defined.

Lemma waitForResultSHT_observes_witness :
  exists l,
    [EvPinMode 2 INPUT; EvMillis; EvDigitalRead 2]
      = [] ++ [EvPinMode 2 INPUT; EvMillis] ++ l /\
    Forall (observes 2) l.
Proof.
  apply (waitForResultSHT_observes
           (B := avr_board (line_of [false]) ticking) 1 2
           (power_on S754_nan)
           (mkSys (raw_storage S754_nan) 1 1
                  [EvPinMode 2 INPUT; EvMillis; EvDigitalRead 2])).
  reflexivity.
Defined.

Lemma readHumidity_exact_word_witness :
  exists raw st2,
    transaction (B := avr_board (line_of answer_6400) ticking)
      5 10 default_object raw st2.
Proof.
  destruct (readHumidity (B := avr_board (line_of answer_6400) ticking)
              10 default_object) as [[h st']|] eqn:E.
  - destruct (proj2 (readHumidity_exact_word
                       (B := avr_board (line_of answer_6400) ticking)
                       10 default_object ltac:(discriminate)) h st' E)
      as (raw & st2 & Htr & _).
    exists raw, st2. exact Htr.
  - vm_compute in E. discriminate E.
Defined.

Lemma humidity_after_temperature_witness :
  exists t h rawH,
    eval (readTemperatureC (B := avr_board (line_of two_answers) ticking) 10)
         default_object = Some t /\
    h = ((t - dec 250 10) * (T1 + T2 * of_int rawH)
         + (C1 + C2 * of_int rawH + C3 * of_int rawH * of_int rawH))%f32.
Proof.
  destruct (readTemperatureC (B := avr_board (line_of two_answers) ticking)
              10 default_object) as [[t st1]|] eqn:E1;
    [|vm_compute in E1; discriminate E1].
  destruct (readHumidity (B := avr_board (line_of two_answers) ticking)
              10 st1) as [[h st2]|] eqn:E2.
  - destruct (proj1 (humidity_after_temperature
                       (B := avr_board (line_of two_answers) ticking)
                       10 10 default_object st1 st2 t h E1 E2)) as (rawH & Hh).
    exists t, h, rawH. split; [|exact Hh].
    unfold eval. rewrite E1. reflexivity.
  - exfalso. vm_compute in E1. apply some_pair_inv in E1.
    destruct E1 as [_ <-]. vm_compute in E2. discriminate E2.
Defined.

Lemma reads_keep_calibration_witness :
  exists st',
    same_calibration (obj default_object) (obj st').
Proof.
  destruct (readTemperatureC (B := avr_board (line_of answer_6400) ticking)
              10 default_object) as [[t st']|] eqn:E;
    [|vm_compute in E; discriminate E].
  exists st'.
  apply (proj1 (proj2 (reads_keep_calibration
                         (B := avr_board (line_of answer_6400) ticking)
                         10 default_object st')) t E).
Defined.

Lemma sensor_answer_converted_witness :
  exists st',
    readTemperatureC (B := avr_board (line_of answer_6400) ticking)
      10 default_object =
      Some ((of_int 6400 * _D2C (obj default_object)
             + _D1C (obj default_object))%f32, st') /\
    obj st' = set_temperatureRaw 6400 (obj default_object).
Proof.
  apply (sensor_answer_converted
           (B := avr_board (line_of answer_6400) ticking)
           10 2 6400 default_object).
  - discriminate.
  - intros [|[|i]] Hi; [reflexivity | reflexivity | lia].
  - reflexivity.
  - intros [|[|i]] Hi; [reflexivity | reflexivity | lia].
  - split; [discriminate | reflexivity].
  - right. reflexivity.
  - reflexivity.
  - lia.
Defined.

Lemma temperature_read_repeatable_witness :
  exists t1 t2,
    eval (readTemperatureC (B := avr_board (line_of two_answers) ticking) 10)
         default_object = Some t1 /\
    t2 = t1.
Proof.
  destruct (readTemperatureC (B := avr_board (line_of two_answers) ticking)
              10 default_object) as [[t1 st1]|] eqn:E1;
    [|vm_compute in E1; discriminate E1].
  pose proof E1 as C1. vm_compute in C1. apply some_pair_inv in C1.
  destruct C1 as [_ <-].
  match type of E1 with _ = Some (_, ?s1) =>
    destruct (readTemperatureC (B := avr_board (line_of two_answers) ticking)
                10 s1) as [[t2 st2]|] eqn:E2;
      [|vm_compute in E2; discriminate E2]
  end.
  pose proof E2 as C2. vm_compute in C2. apply some_pair_inv in C2.
  destruct C2 as [_ <-].
  exists t1, t2. split; [unfold eval; rewrite E1; reflexivity|].
  match type of E1 with _ = Some (_, ?s1) =>
    match type of E2 with _ = Some (_, ?s2) =>
      exact (proj1 (temperature_read_repeatable
                      (B := avr_board (line_of two_answers) ticking)
                      10 10 default_object s1 s2 t1 t2 eq_refl) E1 E2)
    end
  end.
Defined.

Lemma read_call_sequence_witness :
  exists st' l,
    Forall (observes 10) l /\
    out st' = out default_object ++ sendCommand_events 3 10 11 INPUT
              ++ read_tail 10 11 INPUT l.
Proof.
  destruct (readTemperatureC (B := avr_board (line_of answer_6400) ticking)
              10 default_object) as [[t st']|] eqn:E;
    [|vm_compute in E; discriminate E].
  destruct (proj1 (read_call_sequence
                     (B := avr_board (line_of answer_6400) ticking)
                     10 default_object st') t E) as (l & Hall & Hout).
  exists st', l. split; [exact Hall | exact Hout].
Defined.
